(** * adclient.js: group-gated directory authentication

    A shallow embedding of [lib/adclient.js].  The client is a JavaScript
    object with four mutable fields and eight methods written in
    continuation-passing style on top of three libraries: ldapjs (the
    directory client), lodash and underscore.string (mixed into lodash by
    [_.mixin(_s.exports())], so [_.words], [_.startsWith] and [_.ltrim] are
    underscore.string's).

    Conventions of the embedding:
    - a method [m(args, callback)] is a function taking the continuation
      [callback] and returning a computation in the monad [M World];
    - the directory (ldapjs), the random generator behind [_.random], the
      engine's Unicode tables and the caller's own callback are the
      environment: the first three are an oracle [Directory], whose directory
      and generator may answer differently after every history, the last one
      is recorded as an event of the trace;
    - a JavaScript exception aborts the whole computation ([Thrown]);
    - every asynchronous ldapjs call sits in tail position of the synchronous
      code that issues it (the unbind in [close] apart, see there), so running
      its completion handler right after the request is recorded keeps the
      order of the observable events;
    - strings are [string], read as UTF-8: a character below 128 is the
      ASCII character, the characters from 128 on are the bytes of what lies
      beyond ASCII.  The program splits, trims and compares at ASCII
      characters only, which is done byte by byte.  Lower-casing and the
      white-space test are computed on ASCII strings; on a string with a
      character beyond ASCII they are the JavaScript engine's
      ([Str.Unicode]), part of the environment. *)

From Stdlib Require Import Ascii String ZArith Lia.
From stdpp Require Import base option list strings gmap pretty.

Local Open Scope string_scope.

(** ** JavaScript and underscore.string string functions *)

Module Str.

(** The ASCII characters, and the strings made of them only. *)
Definition is_ascii_char (c : ascii) : bool := Nat.ltb (nat_of_ascii c) 128.

Fixpoint is_ascii (s : string) : bool :=
  match s with
  | EmptyString => true
  | String c r => is_ascii_char c && is_ascii r
  end.

(** [String.prototype.toLowerCase] on an ASCII string. *)
Definition is_upper (c : ascii) : bool :=
  let n := nat_of_ascii c in (Nat.leb 65 n) && (Nat.leb n 90).

Definition lower_char (c : ascii) : ascii :=
  if is_upper c then ascii_of_nat (nat_of_ascii c + 32) else c.

Fixpoint ascii_lower (s : string) : string :=
  match s with
  | EmptyString => EmptyString
  | String c r => String (lower_char c) (ascii_lower r)
  end.

(** Lower-casing, given what it does to a string that has a character
    beyond ASCII. *)
Definition lower_with (beyond : string → string) (s : string) : string :=
  if is_ascii s then ascii_lower s else beyond s.

(** The regular-expression class [\s] on ASCII: TAB, LF, VT, FF, CR, SPACE. *)
Definition is_white (c : ascii) : bool :=
  let n := nat_of_ascii c in ((Nat.leb 9 n) && (Nat.leb n 13)) || Nat.eqb n 32.

(** [/^\s*$/.test(str)] on an ASCII string. *)
Fixpoint ascii_blank (s : string) : bool :=
  match s with
  | EmptyString => true
  | String c r => is_white c && ascii_blank r
  end.

(** What the JavaScript engine does with a string that has a character
    beyond ASCII: [unicode_lower] is [String.prototype.toLowerCase] and
    [unicode_blank] is the test [/^\s*$/] on such a string.  The tables
    behind them are the Unicode standard's and no part of the program; of
    lower-casing the development uses one fact: where an ASCII character
    cuts a lower-cased string in two, that character is none of [A-Z] and
    lower-casing leaves either part as it is. *)
Record Unicode : Type := {
  unicode_lower : string → string;
  unicode_blank : string → bool;
  unicode_lower_cut : ∀ s a c b,
    lower_with unicode_lower s = a +:+ String c b →
    is_ascii_char c = true →
    lower_with unicode_lower a = a
    ∧ is_upper c = false
    ∧ lower_with unicode_lower b = b
}.

(** [String.prototype.toLowerCase]. *)
Definition toLowerCase (u : Unicode) (s : string) : string :=
  lower_with (unicode_lower u) s.

(** [_s.isBlank(str)]: [/^\s*$/.test(str)]. *)
Definition isBlank (u : Unicode) (s : string) : bool :=
  if is_ascii s then ascii_blank s else unicode_blank u s.

(** Membership of a character in the class [[chars]] that
    [defaultToWhiteSpace(characters)] builds from a string. *)
Fixpoint char_in (c : ascii) (chars : string) : bool :=
  match chars with
  | EmptyString => false
  | String d r => Ascii.eqb c d || char_in c r
  end.

(** [_s.ltrim(str, characters)]: [str.replace(/^[characters]+/, '')]. *)
Fixpoint ltrim (s chars : string) : string :=
  match s with
  | EmptyString => EmptyString
  | String c r => if char_in c chars then ltrim r chars else s
  end.

(** [_s.rtrim(str, characters)]: [str.replace(/[characters]+$/, '')]. *)
Fixpoint rtrim (s chars : string) : string :=
  match s with
  | EmptyString => EmptyString
  | String c r =>
      match rtrim r chars with
      | EmptyString => if char_in c chars then EmptyString else String c EmptyString
      | r' => String c r'
      end
  end.

(** [_s.trim(str, characters)]: both ends. *)
Definition trim (s chars : string) : string := rtrim (ltrim s chars) chars.

(** [str.split(sep)] for a separator of one character; the result is never
    empty: [''.split(',')] is [['']]. *)
Fixpoint split (s : string) (sep : ascii) : list string :=
  match s with
  | EmptyString => [EmptyString]
  | String c r =>
      if Ascii.eqb c sep then EmptyString :: split r sep
      else match split r sep with
           | h :: t => String c h :: t
           | [] => [String c EmptyString]
           end
  end.

(** [_s.words(str, delimiter)]:
    [if (isBlank(str)) return []; return trim(str, delimiter).split(delimiter)]. *)
Definition words (u : Unicode) (s : string) (delimiter : ascii) : list string :=
  if isBlank u s then []
  else split (trim s (String delimiter EmptyString)) delimiter.

(** [_s.startsWith(str, starts)]. *)
Definition startsWith (s starts : string) : bool := String.prefix starts s.

(** An engine for the concrete runs: it knows the letters of the Latin-1
    supplement from À to Þ (× apart) and no other character beyond ASCII.
    In UTF-8 such a letter is the byte 195 followed by a byte from 128 to
    158 other than 151, and its lower-case letter has 32 more in the second
    byte.  To this engine no character beyond ASCII is white space. *)
Definition is_lead (c : ascii) : bool := Nat.eqb (nat_of_ascii c) 195.

Definition is_latin_upper (c : ascii) : bool :=
  let n := nat_of_ascii c in
  Nat.leb 128 n && Nat.leb n 158 && negb (Nat.eqb n 151).

(** The byte that comes for [c] when the byte before it is [p]. *)
Definition latin_lower_char (p c : ascii) : ascii :=
  if is_lead p && is_latin_upper c then ascii_of_nat (nat_of_ascii c + 32)
  else lower_char c.

Fixpoint latin_lower_after (p : ascii) (s : string) : string :=
  match s with
  | EmptyString => EmptyString
  | String c r => String (latin_lower_char p c) (latin_lower_after c r)
  end.

Definition latin_lower (s : string) : string := latin_lower_after Ascii.zero s.

Ltac bytes c := destruct c as [[] [] [] [] [] [] [] []].

Lemma lower_char_not_upper c : is_upper (lower_char c) = false.
Proof. bytes c; reflexivity. Qed.

Lemma lower_char_idemp c : lower_char (lower_char c) = lower_char c.
Proof. unfold lower_char at 1. rewrite lower_char_not_upper. reflexivity. Qed.

Lemma lower_char_ascii c : is_ascii_char (lower_char c) = is_ascii_char c.
Proof. bytes c; reflexivity. Qed.

Lemma lower_char_lead c : is_lead (lower_char c) = is_lead c.
Proof. bytes c; reflexivity. Qed.

Lemma lower_char_latin_upper c : is_latin_upper (lower_char c) = is_latin_upper c.
Proof. bytes c; reflexivity. Qed.

Lemma latin_upper_not_ascii c : is_latin_upper c = true → is_ascii_char c = false.
Proof. bytes c; first [reflexivity | discriminate]. Qed.

Lemma lead_not_ascii c : is_lead c = true → is_ascii_char c = false.
Proof. bytes c; first [reflexivity | discriminate]. Qed.

Lemma latin_upper_shift c :
  is_latin_upper c = true →
  let c' := ascii_of_nat (nat_of_ascii c + 32) in
  is_ascii_char c' = false ∧ lower_char c' = c'
  ∧ is_latin_upper c' = false ∧ is_lead c' = false.
Proof. bytes c; intros H; try discriminate H; repeat split. Qed.

Lemma latin_lower_char_idemp q p c :
  (is_lead q = true → is_lead p = true) →
  latin_lower_char q (latin_lower_char p c) = latin_lower_char p c.
Proof.
  intros H. unfold latin_lower_char.
  destruct (is_lead p) eqn:Hp, (is_latin_upper c) eqn:Hc; simpl.
  - destruct (latin_upper_shift c Hc) as (_ & Hl & -> & _).
    rewrite andb_false_r. exact Hl.
  - rewrite lower_char_latin_upper, Hc, andb_false_r. apply lower_char_idemp.
  - destruct (is_lead q); [discriminate (H eq_refl)|]. apply lower_char_idemp.
  - rewrite lower_char_latin_upper, Hc, andb_false_r. apply lower_char_idemp.
Qed.

Lemma latin_lower_char_lead p c :
  is_lead (latin_lower_char p c) = true → is_lead c = true.
Proof.
  unfold latin_lower_char.
  destruct (is_lead p && is_latin_upper c) eqn:E.
  - apply andb_true_iff in E as [_ Hc].
    destruct (latin_upper_shift c Hc) as (_ & _ & _ & ->). discriminate.
  - rewrite lower_char_lead. auto.
Qed.

Lemma latin_lower_after_idemp s : ∀ q p,
  (is_lead q = true → is_lead p = true) →
  latin_lower_after q (latin_lower_after p s) = latin_lower_after p s.
Proof.
  induction s as [|c r IH]; intros q p H; simpl; [reflexivity|].
  rewrite (latin_lower_char_idemp q p c H), IH; [reflexivity|].
  apply latin_lower_char_lead.
Qed.

Lemma latin_lower_after_ascii s : ∀ p,
  is_ascii s = true → latin_lower_after p s = ascii_lower s.
Proof.
  induction s as [|c r IH]; intros p; simpl; [reflexivity|].
  intros [Hc Hr]%andb_true_iff. rewrite (IH c Hr). unfold latin_lower_char.
  destruct (is_latin_upper c) eqn:E.
  - rewrite (latin_upper_not_ascii c E) in Hc. discriminate.
  - rewrite andb_false_r. reflexivity.
Qed.

Lemma lower_with_latin_lower s : lower_with latin_lower s = latin_lower s.
Proof.
  unfold lower_with. destruct (is_ascii s) eqn:E; [|reflexivity].
  symmetry. apply latin_lower_after_ascii, E.
Qed.

Lemma latin_lower_after_cut a : ∀ q p s c b,
  latin_lower_after p s = a +:+ String c b →
  is_ascii_char c = true →
  (is_lead q = true → is_lead p = true) →
  latin_lower_after q a = a ∧ is_upper c = false ∧ latin_lower b = b.
Proof.
  induction a as [|x a IH]; intros q p [|c0 r] c b; simpl; try discriminate.
  - intros [= Hc <-] Ha _. split; [reflexivity|].
    assert (E : is_lead p && is_latin_upper c0 = false).
    { destruct (is_lead p && is_latin_upper c0) eqn:E; [|reflexivity].
      apply andb_true_iff in E as [Hp E]. unfold latin_lower_char in Hc.
      rewrite Hp, E in Hc. simpl in Hc. subst c.
      destruct (latin_upper_shift c0 E) as (Hn & _). cbv zeta in Hn. congruence. }
    unfold latin_lower_char in Hc. rewrite E in Hc. subst c.
    split; [apply lower_char_not_upper|].
    apply latin_lower_after_idemp. discriminate.
  - intros [= <- H] Hc Hq.
    destruct (IH (latin_lower_char p c0) c0 r c b H Hc (latin_lower_char_lead p c0))
      as (Ha & Hu & Hb).
    rewrite (latin_lower_char_idemp q p c0 Hq), Ha. auto.
Qed.

Lemma latin_lower_cut s a c b :
  lower_with latin_lower s = a +:+ String c b →
  is_ascii_char c = true →
  lower_with latin_lower a = a ∧ is_upper c = false ∧ lower_with latin_lower b = b.
Proof.
  rewrite !lower_with_latin_lower. intros H Hc.
  apply (latin_lower_after_cut a Ascii.zero Ascii.zero s c b H Hc). auto.
Qed.

Definition latin1 : Unicode :=
  {| unicode_lower := latin_lower;
     unicode_blank := λ _, false;
     unicode_lower_cut := latin_lower_cut |}.

End Str.



(** ** Values of the program *)

(** What the code passes as [err]: an [Error] object of ldapjs, or one of the
    client's own message strings. *)
Inductive jserr : Type :=
| LdapError (msg : string)
| StrError (msg : string).

(** The test [if (err)]: [undefined], [null] and the empty string are falsy,
    an object is truthy. *)
Definition truthy (err : option jserr) : bool :=
  match err with
  | None => false
  | Some (LdapError _) => true
  | Some (StrError s) => negb (String.eqb s "")
  end.

(** An attribute of [searchEntry.object]: ldapjs gives a string for one value
    and an array of strings for several. *)
Inductive AttrValue : Type :=
| AttrString (s : string)
| AttrArray (l : list string).

(** [searchEntry.object], a plain JavaScript object. *)
Abbreviation Entry := (gmap string AttrValue).

(** The objects [{cn: valuedata, dn: value}] pushed by [getMembersOfGroupDN];
    [cn] is [undefined] when the extraction callback gets no second argument. *)
Record MemberObject : Type := { cn : option string; dn : string }.

(** [params.url]: an array (of strings and falsy holes), a string, or anything
    else.  [None] inside the array stands for a falsy value that is not a
    string ([false], [null], [0], [undefined], [NaN]). *)
Inductive UrlParam : Type :=
| UrlArray (l : list (option string))
| UrlString (s : string)
| UrlOther.

Record Params : Type := {
  url : UrlParam;
  groupSearchFilter : string;
  groupSearchAttributes : list string;
  groupSearchDN : string;
  masterDn : string;
  masterPw : string;
  userSearchFilter : string;
  userSearchAttributes : list string
}.

(** A url handed to [ldapjs.createClient]; [None] is [undefined]. *)
Abbreviation url_t := (option string).

Record ldapClient : Type := { ldap_url : url_t }.

(** [this]: [masterClient] and [userClient] start as [false] ([None]). *)
Record adClient : Type := {
  params : Params;
  masterClient : option ldapClient;
  masterBound : bool;
  userClient : option ldapClient;
  userBound : bool
}.

Inductive Role : Type := Master | User.

Record SearchParams : Type := {
  sp_filter : string;
  sp_scope : string;
  sp_attributes : list string
}.

(** Second argument of a recorded callback invocation. *)
Inductive jsval : Type :=
| VUndefined
| VString (s : string)
| VEntry (e : Entry)
| VMembers (l : list MemberObject).

(** Observable actions, in the order they happen. *)
Inductive Event : Type :=
| EvCreateClient (r : Role) (u : url_t)
| EvBind (r : Role) (dn pw : string)
| EvSearch (r : Role) (base : string) (opts : SearchParams)
| EvUnbind (r : Role)
| EvClose
| EvCallback (err : option jserr) (v : jsval).

(** How a search response stream ends: an ['error'] event or an ['end'] event
    carrying the result status. *)
Inductive StreamEnd : Type :=
| EndError (msg : string)
| EndStatus (status : Z).

(** What [client.search(base, opts, cb)] hands to [cb]: an error and no
    response object, or a response emitting ['searchEntry'] events and then
    its final event. *)
Inductive SearchOutcome : Type :=
| SearchFail (msg : string)
| SearchStream (entries : list Entry) (fin : StreamEnd).

(** The environment: the engine's Unicode tables, the random generator and
    the directory, whose every answer may depend on the events so far. *)
Record Directory : Type := {
  dir_unicode : Str.Unicode;
  dir_random : list Event → nat → nat;
  dir_create_throws : url_t → bool;
  dir_bind : list Event → Role → string → string → option string;
  dir_search : list Event → Role → string → SearchParams → SearchOutcome;
  dir_unbind : list Event → Role → option string
}.

(** ** The monad: state, trace and exceptions *)

Inductive Outcome (S A : Type) : Type :=
| Done (a : A) (s : S)
| Thrown (e : string) (s : S).
Arguments Done {S A} a s.
Arguments Thrown {S A} e s.

Definition M (S A : Type) : Type := S → Outcome S A.

Global Instance M_ret {S} : MRet (M S) := λ A a s, Done a s.
Global Instance M_bind {S} : MBind (M S) := λ A B f m s,
  match m s with
  | Done a s' => f a s'
  | Thrown e s' => Thrown e s'
  end.

Definition throw {S A} (e : string) : M S A := λ s, Thrown e s.

Definition final {S A} (o : Outcome S A) : S :=
  match o with Done _ s => s | Thrown _ s => s end.

(** [_.each(list, f)]. *)
Fixpoint each {S A} (l : list A) (f : A → M S unit) : M S unit :=
  match l with
  | [] => mret tt
  | x :: r => f x ;; each r f
  end.

(** [array.push(x)] on a local array that a closure captures. *)
Definition push {A} (x : A) : M (list A) unit := λ s, Done tt (s ++ [x])%list.

(** [if (c) { m }] *)
Definition when {S} (c : bool) (m : M S unit) : M S unit :=
  if c then m else mret tt.

(** ** extractCNFromDN *)

(** [dn] is [None] for [undefined]. *)
Definition extractCNFromDN {S} (u : Str.Unicode) (dn : option string)
    (callback : option jserr → option string → M S unit) : M S unit :=
  match dn with
  | Some d =>
      each (Str.words u (Str.toLowerCase u d) ",") (λ dndata,
        if Str.startsWith dndata "cn=" then
          callback None (Some (Str.ltrim dndata "cn="))
        else mret tt)
  | None => callback (Some (StrError "No DN given")) None
  end.

(** The invocations [(err, valuedata)] of the callback of one extraction. *)
Definition extracted (u : Str.Unicode) (dn : option string) :
    list (option jserr * option string) :=
  final (extractCNFromDN u dn (λ err valuedata, push (err, valuedata)) []).

(** ** The client *)

Record World : Type := { client : adClient; trace : list Event }.

(** [new adClient(params)] and the world it starts in. *)
Definition new_adClient (p : Params) : adClient :=
  {| params := p; masterClient := None; masterBound := false;
     userClient := None; userBound := false |}.

Definition initial (p : Params) : World :=
  {| client := new_adClient p; trace := [] |}.

Definition emit (e : Event) : M World unit :=
  λ w, Done tt {| client := client w; trace := (trace w ++ [e])%list |}.

Definition this : M World adClient := λ w, Done (client w) w.

Definition history : M World (list Event) := λ w, Done (trace w) w.

Definition update (f : adClient → adClient) : M World unit :=
  λ w, Done tt {| client := f (client w); trace := trace w |}.

Definition set_masterClient (c : ldapClient) (a : adClient) : adClient :=
  {| params := params a; masterClient := Some c; masterBound := masterBound a;
     userClient := userClient a; userBound := userBound a |}.

Definition set_userClient (c : ldapClient) (a : adClient) : adClient :=
  {| params := params a; masterClient := masterClient a; masterBound := masterBound a;
     userClient := Some c; userBound := userBound a |}.

Definition set_masterBound (b : bool) (a : adClient) : adClient :=
  {| params := params a; masterClient := masterClient a; masterBound := b;
     userClient := userClient a; userBound := userBound a |}.

(** The caller's callback: its invocation is an event. *)
Definition report {A} (inj : A → jsval) (err : option jserr) (v : option A) : M World unit :=
  emit (EvCallback err (from_option inj VUndefined v)).

(** [_.compact(array)]: drops the falsy elements, among strings the empty one. *)
Definition compact (l : list (option string)) : list string :=
  omap (λ x, match x with
             | Some s => if String.eqb s "" then None else Some s
             | None => None
             end) l.

(** [_.where(result, {cn: username})]; a missing collection has no element. *)
Definition where_cn (result : option (list MemberObject)) (username : string) : list MemberObject :=
  List.filter (λ m, bool_decide (cn m = Some username)) (default [] result).

(** [_.pick(object, keys)]. *)
Definition pick (object : Entry) (keys : list string) : Entry :=
  filter (λ kv, kv.1 ∈ keys) object.

Section Client.

Context (dir : Directory).

(** *** ldapjs *)

(** [ldapjs.createClient({'url': url})]; whether it rejects its options is
    the library's business. *)
Definition createClient (r : Role) (u : url_t) : M World ldapClient :=
  if dir_create_throws dir u then throw "TypeError: createClient options"
  else emit (EvCreateClient r u) ;; mret {| ldap_url := u |}.

(** [c.bind(dn, pw, cb)] where [c] is the field of [this] read at the call;
    calling a method of [false] raises a TypeError. *)
Definition ldap_bind (r : Role) (c : option ldapClient) (bdn pw : string)
    (cb : option jserr → M World unit) : M World unit :=
  match c with
  | None => throw "TypeError: bind is not a function"
  | Some _ =>
      h ← history ;
      emit (EvBind r bdn pw) ;;
      cb (LdapError <$> dir_bind dir h r bdn pw)
  end.

(** [c.search(base, opts, cb)]: [cb] gets [(err)] or [(null, res)]. *)
Definition ldap_search (r : Role) (c : option ldapClient) (base : string)
    (opts : SearchParams)
    (cb : option jserr → option (list Entry * StreamEnd) → M World unit) : M World unit :=
  match c with
  | None => throw "TypeError: search is not a function"
  | Some _ =>
      h ← history ;
      emit (EvSearch r base opts) ;;
      match dir_search dir h r base opts with
      | SearchFail msg => cb (Some (LdapError msg)) None
      | SearchStream entries fin => cb None (Some (entries, fin))
      end
  end.

(** [c.unbind(cb)]. *)
Definition ldap_unbind (r : Role) (c : option ldapClient)
    (cb : option jserr → M World unit) : M World unit :=
  match c with
  | None => throw "TypeError: unbind is not a function"
  | Some _ =>
      h ← history ;
      emit (EvUnbind r) ;;
      cb (LdapError <$> dir_unbind dir h r)
  end.

(** [_.random(0, n)]: an integer between 0 and [n], both included. *)
Definition random (n : nat) : M World nat :=
  h ← history ; mret (Nat.min (dir_random dir h n) n).

(** *** getUrl, createClients, bindMaster, close *)

Definition getUrl (paramUrl : UrlParam)
    (callback : option jserr → url_t → M World unit) : M World unit :=
  match paramUrl with
  | UrlArray a =>
      let paramUrl := compact a in
      i ← random (length paramUrl) ;
      callback None (paramUrl !! i)
  | UrlString s => callback None (Some s)
  | UrlOther => callback (Some (StrError "No valid url given")) None
  end.

Definition createClients (callback : option jserr → M World unit) : M World unit :=
  self ← this ;
  getUrl (url (params self)) (λ err url,
    if negb (truthy err) then
      self ← this ;
      match masterClient self with
      | None => c ← createClient Master url ; update (set_masterClient c)
      | Some _ => mret tt
      end ;;
      self ← this ;
      match userClient self with
      | None => c ← createClient User url ; update (set_userClient c)
      | Some _ => mret tt
      end ;;
      callback None
    else callback err).

Definition bindMaster (callback : option jserr → M World unit) : M World unit :=
  createClients (λ err,
    when (truthy err) (callback err) ;;
    self ← this ;
    if masterBound self then callback None
    else ldap_bind Master (masterClient self)
           (masterDn (params self)) (masterPw (params self)) callback).

(** The completion handler passes [(err, result)]; no caller in the file
    reads [result], so the continuation takes [err] only.  In the bound
    branch ldapjs completes the unbind before or after the trailing
    [callback()] depending on the connection; the textual order is kept. *)
Definition close (callback : option jserr → M World unit) : M World unit :=
  emit EvClose ;;
  self ← this ;
  when (masterBound self)
    (ldap_unbind Master (masterClient self) (λ err,
       update (set_masterBound false) ;;
       callback err)) ;;
  callback None.

(** *** getMembersOfGroupDN *)

(** The array [memberObjects] built in [case 1] from the single entry. *)
Definition memberObjects_of (entry : Entry) : list MemberObject :=
  let extract value : M (list MemberObject) unit :=
    extractCNFromDN (dir_unicode dir) (Some value) (λ err valuedata,
      push {| cn := valuedata; dn := value |}) in
  final (match entry !! "member" with
         | None => mret tt
         | Some (AttrArray values) => each values extract
         | Some (AttrString value) => extract value
         end []).

Definition status_message (status : Z) : jserr :=
  StrError ("Status of AD search was" +:+ pretty status).

Definition getMembersOfGroupDN
    (callback : option jserr → option (list MemberObject) → M World unit) : M World unit :=
  bindMaster (λ err,
    when (truthy err) (callback err None) ;;
    self ← this ;
    let searchParams :=
      {| sp_filter := groupSearchFilter (params self);
         sp_scope := "sub";
         sp_attributes := groupSearchAttributes (params self) |} in
    ldap_search Master (masterClient self) (groupSearchDN (params self)) searchParams
      (λ err searchResult,
        when (truthy err) (callback err None) ;;
        match searchResult with
        | None => throw "TypeError: Cannot call method 'on' of undefined"
        | Some (resultSet, EndError e) => callback (Some (LdapError e)) None
        | Some (resultSet, EndStatus status) =>
            if negb (status =? 0)%Z then callback (Some (status_message status)) None
            else match resultSet with
                 | [] => callback None None
                 | [entry] => callback None (Some (memberObjects_of entry))
                 | _ => callback (Some (StrError "Error: unexpected number of matches")) None
                 end
        end)).

(** *** authUserDn *)

Definition authUserDn (userDn password : string)
    (callback : option jserr → option Entry → M World unit) : M World unit :=
  createClients (λ err,
    when (truthy err) (callback err None) ;;
    self ← this ;
    ldap_bind User (userClient self) userDn password (λ err,
      when (truthy err) (callback err None) ;;
      self ← this ;
      let searchParams :=
        {| sp_filter := userSearchFilter (params self);
           sp_scope := "sub";
           sp_attributes := userSearchAttributes (params self) |} in
      ldap_search User (userClient self) userDn searchParams
        (λ err searchResult,
          when (truthy err) (callback err None) ;;
          match searchResult with
          | None => throw "TypeError: Cannot call method 'on' of undefined"
          | Some (resultSet, EndError e) => callback (Some (LdapError e)) None
          | Some (resultSet, EndStatus status) =>
              if negb (status =? 0)%Z then callback (Some (status_message status)) None
              else
                self ← this ;
                ldap_unbind User (userClient self) (λ err,
                  match resultSet with
                  | [] => callback None None
                  | [entry] =>
                      self ← this ;
                      callback None (Some (pick entry (userSearchAttributes (params self))))
                  | _ => callback (Some (StrError "Error: unexpected number of matches")) None
                  end)
          end))).

(** *** authUser *)

Definition user_not_found : jserr := StrError "Error: User not found".

Definition authUser (username password : string)
    (callback : option jserr → option Entry → M World unit) : M World unit :=
  getMembersOfGroupDN (λ err result,
    when (truthy err) (callback err None) ;;
    let user := where_cn result username in
    match head user with
    | None => close (λ err, callback (Some user_not_found) None)
    | Some user0 =>
        authUserDn (dn user0) password (λ err userObject,
          close (λ err2,
            when (truthy err) (callback err userObject) ;;
            callback None userObject))
    end).

End Client.

(** ** Runs against concrete directories *)

Module Fixture.

Definition config (u : UrlParam) : Params :=
  {| url := u;
     groupSearchFilter := "(objectclass=*)";
     groupSearchAttributes := ["member"];
     groupSearchDN := "CN=MYAPP,OU=Groups,DC=x,DC=com";
     masterDn := "CN=mymaster,OU=IT,DC=x,DC=com";
     masterPw := "s3cr3t";
     userSearchFilter := "(objectclass=*)";
     userSearchAttributes := ["cn"; "mail"] |}.

Definition jdoe_dn : string := "CN=jdoe,OU=Users,DC=x,DC=com".

Definition group : Entry :=
  {[ "dn" := AttrString "CN=MYAPP,OU=Groups,DC=x,DC=com";
     "member" := AttrString jdoe_dn ]}.

Definition jdoe : Entry :=
  {[ "dn" := AttrString jdoe_dn;
     "cn" := AttrString "jdoe";
     "mail" := AttrString "jdoe@x.com";
     "sn" := AttrString "Doe" ]}.

(** A directory whose answers do not depend on the history. *)
Definition directory (draw : nat) (master_bind user_bind : option string)
    (groups users : SearchOutcome) : Directory :=
  {| dir_unicode := Str.latin1;
     dir_random := λ _ _, draw;
     dir_create_throws := λ u, bool_decide (u = None);
     dir_bind := λ _ r _ _, match r with Master => master_bind | User => user_bind end;
     dir_search := λ _ r _ _, match r with Master => groups | User => users end;
     dir_unbind := λ _ _, None |}.

Definition healthy : Directory :=
  directory 0 None None
    (SearchStream [group] (EndStatus 0)) (SearchStream [jdoe] (EndStatus 0)).

(** The master password is wrong; the directory then answers the search
    with an error. *)
Definition master_rejected : Directory :=
  directory 0 (Some "InvalidCredentialsError") None
    (SearchStream [] (EndError "OperationsError")) (SearchStream [jdoe] (EndStatus 0)).

(** No entry matches the group search. *)
Definition no_group : Directory :=
  directory 0 None None
    (SearchStream [] (EndStatus 0)) (SearchStream [jdoe] (EndStatus 0)).

(** No entry matches the user search. *)
Definition no_user : Directory :=
  directory 0 None None
    (SearchStream [group] (EndStatus 0)) (SearchStream [] (EndStatus 0)).

(** The user password is wrong; the directory then answers the search with
    an error. *)
Definition user_rejected : Directory :=
  directory 0 None (Some "InvalidCredentialsError")
    (SearchStream [group] (EndStatus 0)) (SearchStream [] (EndError "OperationsError")).

(** [_.random(0, 1)] answers 1. *)
Definition draws_one : Directory :=
  directory 1 None None
    (SearchStream [group] (EndStatus 0)) (SearchStream [jdoe] (EndStatus 0)).

(** A group with a member whose name has a letter beyond ASCII. *)
Definition aenne_dn : string := "CN=Änne,OU=Users,DC=x,DC=com".

Definition staff : Entry :=
  {[ "dn" := AttrString "CN=MYAPP,OU=Groups,DC=x,DC=com";
     "member" := AttrArray [jdoe_dn; aenne_dn] ]}.

Definition aenne : Entry :=
  {[ "dn" := AttrString aenne_dn;
     "cn" := AttrString "Änne";
     "mail" := AttrString "aenne@x.com" ]}.

Definition umlaut : Directory :=
  directory 0 None None
    (SearchStream [staff] (EndStatus 0)) (SearchStream [aenne] (EndStatus 0)).

Definition single : Params := config (UrlString "ldap://a").

Definition run (d : Directory) (username password : string) : Outcome World unit :=
  authUser d username password (report VEntry) (initial single).

End Fixture.

(** ** Vocabulary of the statements *)

(** [always I m]: [m] keeps [I], whether it returns or raises. *)
Definition always {S A} (I : S → Prop) (m : M S A) : Prop :=
  ∀ s, I s → I (final (m s)).

(** A string with an upper-case character, one that lower-casing changes:
    the string is not its own lower-case form. *)
Definition has_upper (u : Str.Unicode) (s : string) : bool :=
  negb (String.eqb (Str.toLowerCase u s) s).

(** A string with one of the letters [A-Z]. *)
Fixpoint has_ascii_upper (s : string) : bool :=
  match s with
  | EmptyString => false
  | String c r => Str.is_upper c || has_ascii_upper r
  end.

(** A lower-cased string: what [toLowerCase] gives for some string. *)
Definition lowered (u : Str.Unicode) (x : string) : Prop :=
  ∃ s, Str.toLowerCase u s = x.

(** [l.join(sep)], which undoes [split]. *)
Fixpoint join (sep : ascii) (l : list string) : string :=
  match l with
  | [] => ""
  | [x] => x
  | x :: r => x +:+ String sep (join sep r)
  end.

Definition lower_member (u : Str.Unicode) (m : MemberObject) : Prop :=
  ∀ v, cn m = Some v → has_upper u v = false.

Definition lower_result (u : Str.Unicode) (result : option (list MemberObject)) : Prop :=
  Forall (lower_member u) (default [] result).

Definition flags_clear (w : World) : Prop :=
  masterBound (client w) = false ∧ userBound (client w) = false.

(** On a trace: every invocation of the caller's callback comes after an
    invocation of [close]. *)
Fixpoint reports_after_close (closed : bool) (tr : list Event) : bool :=
  match tr with
  | [] => true
  | EvClose :: r => reports_after_close true r
  | EvCallback _ _ :: r => closed && reports_after_close closed r
  | _ :: r => reports_after_close closed r
  end.

Definition closes_before_reporting (tr : list Event) : bool :=
  reports_after_close false tr.

(** Neither flag is set and no unbind of the master client was ever sent. *)
Definition never_bound (w : World) : Prop :=
  flags_clear w ∧ EvUnbind Master ∉ trace w.

Definition log (evs : list Event) (w : World) : World :=
  {| client := client w; trace := (trace w ++ evs)%list |}.

(** The url [getUrl] answers with in world [w]; [None] when it answers with
    its error. *)
Definition selected_url (dir : Directory) (w : World) : option url_t :=
  match url (params (client w)) with
  | UrlArray a =>
      let c := compact a in
      Some (c !! Nat.min (dir_random dir (trace w) (length c)) (length c))
  | UrlString s => Some (Some s)
  | UrlOther => None
  end.

(** The world [createClients] leaves when it creates the missing clients for
    url [u]. *)
Definition connect (u : url_t) (w : World) : World :=
  let w1 :=
    match masterClient (client w) with
    | None => {| client := set_masterClient {| ldap_url := u |} (client w);
                 trace := (trace w ++ [EvCreateClient Master u])%list |}
    | Some _ => w
    end in
  match userClient (client w1) with
  | None => {| client := set_userClient {| ldap_url := u |} (client w1);
               trace := (trace w1 ++ [EvCreateClient User u])%list |}
  | Some _ => w1
  end.

Definition group_search (p : Params) : SearchParams :=
  {| sp_filter := groupSearchFilter p; sp_scope := "sub";
     sp_attributes := groupSearchAttributes p |}.

Definition user_search (p : Params) : SearchParams :=
  {| sp_filter := userSearchFilter p; sp_scope := "sub";
     sp_attributes := userSearchAttributes p |}.

(** The answers of the directory in the run that starts in world [w], once
    the clients exist for url [u]: to the master bind, to the group search
    that follows an accepted master bind, to the bind of [userDn], and to the
    user search that follows an accepted user bind. *)
Definition master_bind_answer (dir : Directory) (u : url_t) (w : World) : option string :=
  dir_bind dir (trace (connect u w)) Master
    (masterDn (params (client w))) (masterPw (params (client w))).

Definition group_search_answer (dir : Directory) (u : url_t) (w : World) : SearchOutcome :=
  dir_search dir
    (trace (log [EvBind Master (masterDn (params (client w))) (masterPw (params (client w)))]
              (connect u w)))
    Master (groupSearchDN (params (client w))) (group_search (params (client w))).

Definition user_bind_answer (dir : Directory) (u : url_t) (w : World)
    (userDn password : string) : option string :=
  dir_bind dir (trace (connect u w)) User userDn password.

Definition user_search_answer (dir : Directory) (u : url_t) (w : World)
    (userDn password : string) : SearchOutcome :=
  dir_search dir (trace (log [EvBind User userDn password] (connect u w)))
    User userDn (user_search (params (client w))).

(** [bindMaster] with the test of [masterBound] removed. *)
Definition bindMaster_always_binds (dir : Directory)
    (callback : option jserr → M World unit) : M World unit :=
  createClients dir (λ err,
    when (truthy err) (callback err) ;;
    self ← this ;
    ldap_bind dir Master (masterClient self)
      (masterDn (params self)) (masterPw (params self)) callback).

(** [close] with the unbind branch removed. *)
Definition close_without_unbind (callback : option jserr → M World unit) : M World unit :=
  emit EvClose ;; callback None.

(** [authUser] with the branch that calls [authUserDn] removed. *)
Definition authUser_not_found (dir : Directory)
    (callback : option jserr → option Entry → M World unit) : M World unit :=
  getMembersOfGroupDN dir (λ err result,
    when (truthy err) (callback err None) ;;
    close dir (λ err, callback (Some user_not_found) None)).

(** The methods of the client, as a caller may invoke them one after the
    other on one instance; the caller's callback only records what it gets. *)
Inductive Call : Type :=
| CallCreateClients
| CallGetUrl (paramUrl : UrlParam)
| CallBindMaster
| CallClose
| CallExtractCNFromDN (d : option string)
| CallGetMembersOfGroupDN
| CallAuthUserDn (userDn password : string)
| CallAuthUser (username password : string).

Definition report1 (err : option jserr) : M World unit :=
  emit (EvCallback err VUndefined).

Definition perform (dir : Directory) (c : Call) : M World unit :=
  match c with
  | CallCreateClients => createClients dir report1
  | CallGetUrl paramUrl => getUrl dir paramUrl (report VString)
  | CallBindMaster => bindMaster dir report1
  | CallClose => close dir report1
  | CallExtractCNFromDN d => extractCNFromDN (dir_unicode dir) d (report VString)
  | CallGetMembersOfGroupDN => getMembersOfGroupDN dir (report VMembers)
  | CallAuthUserDn userDn password => authUserDn dir userDn password (report VEntry)
  | CallAuthUser username password => authUser dir username password (report VEntry)
  end.

(** Worlds an instance built by [new adClient(p)] can be in; a call that
    raised leaves the instance as it was when the exception left it. *)
Inductive reachable (dir : Directory) (p : Params) : World → Prop :=
| reach_initial : reachable dir p (initial p)
| reach_call w c : reachable dir p w → reachable dir p (final (perform dir c w)).

(** ** Vocabulary of the further properties *)

(** The DNs of the [member] attribute of a group entry, in the order
    [getMembersOfGroupDN] visits them. *)
Definition member_values (entry : Entry) : list string :=
  match entry !! "member" with
  | None => []
  | Some (AttrString value) => [value]
  | Some (AttrArray values) => values
  end.

(** The member objects one DN gives: one for each invocation of the callback
    of [extractCNFromDN]. *)
Definition members_of_dn (u : Str.Unicode) (value : string) : list MemberObject :=
  map (λ x, {| cn := x.2; dn := value |}) (extracted u (Some value)).

(** A string that does not begin with c, n or =. *)
Definition trimmed (v : string) : bool :=
  match v with
  | EmptyString => true
  | String c _ => negb (Str.char_in c "cn=")
  end.

(** The world in which [getMembersOfGroupDN] invokes its callback after an
    accepted master bind: clients in place, bind and search sent. *)
Definition resolved (u : url_t) (w : World) : World :=
  log [EvBind Master (masterDn (params (client w))) (masterPw (params (client w)));
       EvSearch Master (groupSearchDN (params (client w)))
         (group_search (params (client w)))]
    (connect u w).

(** Both clients exist. *)
Definition connected (w : World) : Prop :=
  is_Some (masterClient (client w)) ∧ is_Some (userClient (client w)).

(** What one method call leaves untouched: the parameters and every client
    that already exists. *)
Definition keeps_clients (a0 a : adClient) : Prop :=
  params a = params a0
  ∧ (∀ c, masterClient a0 = Some c → masterClient a = Some c)
  ∧ (∀ c, userClient a0 = Some c → userClient a = Some c).

(** The two clients were created together, for the same url. *)
Definition paired (a : adClient) : Prop := masterClient a = userClient a.

(** The error a search response ends with, if it does: the ['error'] event,
    or an ['end'] event whose status is not 0. *)
Definition stream_failure (fin : StreamEnd) : option jserr :=
  match fin with
  | EndError e => Some (LdapError e)
  | EndStatus status => if (status =? 0)%Z then None else Some (status_message status)
  end.

(** A url the configuration [p] can lead [getUrl] to answer with: the string
    itself; for an array, one of its non-empty strings, or [undefined] (an
    empty array, a draw past the end); nothing for any other value. *)
Definition configured (p : Params) (u : url_t) : Prop :=
  match url p with
  | UrlArray a => u = None ∨ ∃ s, u = Some s ∧ Some s ∈ a ∧ s ≠ ""
  | UrlString s => u = Some s
  | UrlOther => False
  end.

(** The clients of an instance configured with [p] were created for urls of
    [p]. *)
Definition clients_configured (p : Params) (a : adClient) : Prop :=
  params a = p
  ∧ (∀ c, masterClient a = Some c → configured p (ldap_url c))
  ∧ (∀ c, userClient a = Some c → configured p (ldap_url c)).

(** A bind that carries what it should: the master credentials of [p] on the
    master client, the given password on the user client. *)
Definition credentials_ok (p : Params) (password : string) (ev : Event) : Prop :=
  match ev with
  | EvBind Master d pw => d = masterDn p ∧ pw = masterPw p
  | EvBind User d pw => pw = password
  | _ => True
  end.

(** Since the trace was [base], the parameters are [p] and every event
    added carries what it should. *)
Definition binds_ok (p : Params) (password : string) (base : list Event)
    (w : World) : Prop :=
  params (client w) = p
  ∧ ∃ new, trace w = (base ++ new)%list ∧ Forall (credentials_ok p password) new.

(** * Proofs *)

(** ** The monad *)

Section Always.

Context {S : Type} (I : S → Prop).

Lemma always_ret {A} (a : A) : always I (mret a : M S A).
Proof. intros s Hs. exact Hs. Qed.

Lemma always_throw {A} e : always I (throw e : M S A).
Proof. intros s Hs. exact Hs. Qed.

Lemma always_bind {A B} (m : M S A) (f : A → M S B) :
  always I m → (∀ a, always I (f a)) → always I (m ≫= f).
Proof.
  intros Hm Hf s Hs. specialize (Hm s Hs).
  unfold mbind, M_bind. destruct (m s) as [a s'|e s']; simpl in *.
  - apply Hf, Hm.
  - exact Hm.
Qed.

Lemma always_when (c : bool) (m : M S unit) :
  always I m → always I (when c m).
Proof. destruct c; simpl; intros H; [exact H | apply always_ret]. Qed.

Lemma always_each {A} (l : list A) (f : A → M S unit) :
  (∀ x, always I (f x)) → always I (each l f).
Proof.
  intros H. induction l as [|x r IH]; simpl.
  - apply always_ret.
  - apply always_bind; [apply H | intros _; exact IH].
Qed.

End Always.

Lemma ret_bind {S A B} (a : A) (f : A → M S B) s : (mret a ≫= f) s = f a s.
Proof. reflexivity. Qed.

(** Runs that differ only in continuations that agree are equal. *)
Lemma bind_ext {S A B} (m1 m2 : M S A) (f g : A → M S B) s :
  m1 s = m2 s → (∀ a s', f a s' = g a s') → (m1 ≫= f) s = (m2 ≫= g) s.
Proof.
  intros Hm H. unfold mbind, M_bind. rewrite Hm.
  destruct (m2 s); [apply H | reflexivity].
Qed.

Lemma each_ext {S A} (P : A → Prop) (l : list A) (f g : A → M S unit) s :
  Forall P l → (∀ x s', P x → f x s' = g x s') → each l f s = each l g s.
Proof.
  intros Hl H. revert s. induction Hl as [|x r Hx _ IH]; intros s; simpl.
  - reflexivity.
  - apply bind_ext; [apply H, Hx | intros _ s'; apply IH].
Qed.

Ltac ext_step H :=
  first
    [ reflexivity
    | apply H
    | apply bind_ext; [|intros]
    | match goal with
      | |- context [match ?x with _ => _ end] => destruct x
      | |- context [if ?x then _ else _] => destruct x
      end ].

Ltac ext_with H := intros; repeat ext_step H.

Ltac exec :=
  cbv [mbind M_bind mret M_ret history emit this update when throw
       ldap_bind ldap_search ldap_unbind createClient random report report1
       log connect set_masterClient set_userClient set_masterBound
       fmap option_fmap option_map];
  cbn [client trace params masterClient masterBound userClient userBound truthy negb].

Ltac crush_world w :=
  destruct w as [[? [?|] ? [?|] ?] ?]; simpl in *; subst.

(** ** Lower case *)

Lemma append_snoc a c r : (a +:+ String c "") +:+ r = a +:+ String c r.
Proof.
  induction a as [|x a IH]; [reflexivity|].
  change (String x ((a +:+ String c "") +:+ r) = String x (a +:+ String c r)).
  rewrite IH. reflexivity.
Qed.

Lemma split_nonempty s sep : Str.split s sep ≠ [].
Proof.
  destruct s as [|c r]; simpl; [discriminate|].
  destruct (Ascii.eqb c sep); [discriminate|].
  destruct (Str.split r sep); discriminate.
Qed.

Lemma split_join s sep : join sep (Str.split s sep) = s.
Proof.
  induction s as [|c r IH]; simpl; [reflexivity|].
  pose proof (split_nonempty r sep) as Hne.
  destruct (Ascii.eqb_spec c sep) as [->|_];
    destruct (Str.split r sep) as [|h [|h' t]]; [done| | |done| |];
    simpl in *; rewrite <- IH; reflexivity.
Qed.

(** Either [rtrim] removes nothing, or it cuts the string before one of the
    characters to trim. *)
Lemma rtrim_cases s chars :
  Str.rtrim s chars = s
  ∨ ∃ c b, s = Str.rtrim s chars +:+ String c b ∧ Str.char_in c chars = true.
Proof.
  induction s as [|c r IH]; simpl; [left; reflexivity|].
  destruct IH as [IH|(c' & b & IH & Hc')].
  - rewrite IH. destruct r as [|d r']; [|left; reflexivity].
    destruct (Str.char_in c chars) eqn:Hc; [|left; reflexivity].
    right. exists c, "". split; [reflexivity | exact Hc].
  - destruct (Str.rtrim r chars) as [|d r'] eqn:E.
    + destruct (Str.char_in c chars) eqn:Hc; right.
      * exists c, r. split; [reflexivity | exact Hc].
      * exists c', b. split; [simpl in *; rewrite IH at 1; reflexivity | exact Hc'].
    + right. exists c', b. split; [simpl in *; rewrite IH at 1; reflexivity | exact Hc'].
Qed.

Lemma char_in_ascii c chars :
  Str.is_ascii chars = true → Str.char_in c chars = true → Str.is_ascii_char c = true.
Proof.
  induction chars as [|d r IH]; simpl; [discriminate|].
  intros [Hd Hr]%andb_true_iff [Hc|Hc]%orb_true_iff; [|auto].
  apply Ascii.eqb_eq in Hc. subst. exact Hd.
Qed.

Lemma has_upper_false u s : has_upper u s = false ↔ Str.toLowerCase u s = s.
Proof.
  unfold has_upper. rewrite negb_false_iff. apply String.eqb_eq.
Qed.

Lemma has_upper_true u s : has_upper u s = true ↔ Str.toLowerCase u s ≠ s.
Proof.
  unfold has_upper. rewrite negb_true_iff. apply String.eqb_neq.
Qed.

Section LowerCase.

Context (u : Str.Unicode).

Lemma lowered_cut a c b :
  lowered u (a +:+ String c b) → Str.is_ascii_char c = true →
  has_upper u a = false ∧ Str.is_upper c = false ∧ has_upper u b = false.
Proof.
  intros [s Hs] Hc. rewrite !has_upper_false.
  exact (Str.unicode_lower_cut u s a c b Hs Hc).
Qed.

Lemma lower_lowered s : has_upper u s = false → lowered u s.
Proof. intros H. exists s. apply has_upper_false, H. Qed.

Lemma lowered_lower s : lowered u (Str.toLowerCase u s).
Proof. exists s. reflexivity. Qed.

(** A string in lower case has none of the letters A-Z. *)
Lemma lowered_no_ascii_upper a b :
  lowered u (a +:+ b) → has_ascii_upper b = false.
Proof.
  revert a. induction b as [|c r IH]; intros a H; simpl; [reflexivity|].
  apply orb_false_iff. split.
  - destruct (Str.is_upper c) eqn:Hc; [|reflexivity].
    assert (Ha : Str.is_ascii_char c = true).
    { destruct c as [[] [] [] [] [] [] [] []]; try reflexivity; discriminate Hc. }
    destruct (lowered_cut a c r H Ha) as (_ & Hc' & _). congruence.
  - apply (IH (a +:+ String c "")). rewrite append_snoc. exact H.
Qed.

Lemma lower_no_ascii_upper s : has_upper u s = false → has_ascii_upper s = false.
Proof. intros H. apply (lowered_no_ascii_upper ""), lower_lowered, H. Qed.

Lemma ltrim_lower s chars :
  Str.is_ascii chars = true →
  has_upper u s = false → has_upper u (Str.ltrim s chars) = false.
Proof.
  intros Hch. induction s as [|c r IH]; simpl; [done|]. intros H.
  destruct (Str.char_in c chars) eqn:Hc; [|exact H].
  apply IH. apply (lowered_cut "" c r); [apply lower_lowered, H|].
  exact (char_in_ascii _ _ Hch Hc).
Qed.

Lemma ltrim_lowered s chars :
  Str.is_ascii chars = true → lowered u s → lowered u (Str.ltrim s chars).
Proof.
  intros Hch H. destruct s as [|c r]; simpl; [exact H|].
  destruct (Str.char_in c chars) eqn:Hc; [|exact H].
  apply lower_lowered, ltrim_lower; [exact Hch|].
  apply (lowered_cut "" c r); [exact H | exact (char_in_ascii _ _ Hch Hc)].
Qed.

Lemma rtrim_lowered s chars :
  Str.is_ascii chars = true → lowered u s → lowered u (Str.rtrim s chars).
Proof.
  intros Hch H. destruct (rtrim_cases s chars) as [->|(c & b & E & Hc)]; [exact H|].
  rewrite E in H. apply lower_lowered.
  apply (lowered_cut _ c b H), (char_in_ascii _ _ Hch Hc).
Qed.

Lemma join_lowered sep l :
  Str.is_ascii_char sep = true → lowered u (join sep l) → Forall (lowered u) l.
Proof.
  intros Hsep. induction l as [|x [|y r] IH]; intros H.
  - constructor.
  - constructor; [exact H | constructor].
  - change (lowered u (x +:+ String sep (join sep (y :: r)))) in H.
    destruct (lowered_cut _ _ _ H Hsep) as (Hx & _ & Hr).
    constructor; [apply lower_lowered, Hx | apply IH, lower_lowered, Hr].
Qed.

Lemma split_lowered s sep :
  Str.is_ascii_char sep = true → lowered u s → Forall (lowered u) (Str.split s sep).
Proof.
  intros Hsep H. apply (join_lowered sep); [exact Hsep|].
  rewrite split_join. exact H.
Qed.

Lemma words_lowered s delimiter :
  Str.is_ascii_char delimiter = true →
  lowered u s → Forall (lowered u) (Str.words u s delimiter).
Proof.
  intros Hd H. unfold Str.words. destruct (Str.isBlank u s); [constructor|].
  apply split_lowered; [exact Hd|]. unfold Str.trim.
  apply rtrim_lowered, ltrim_lowered; simpl; rewrite ?Hd; auto.
Qed.

(** What [_.ltrim(dndata, 'cn=')] leaves of a component that begins with
    cn= is in lower case. *)
Lemma token_lower x :
  lowered u x → Str.startsWith x "cn=" = true →
  has_upper u (Str.ltrim x "cn=") = false.
Proof.
  intros H Hx. destruct x as [|c r]; [discriminate Hx|].
  assert (Hc : Str.char_in c "cn=" = true).
  { unfold Str.startsWith in Hx. cbn [String.prefix] in Hx.
    destruct (ascii_dec "c" c) as [<-|]; [reflexivity | discriminate Hx]. }
  change (Str.ltrim (String c r) "cn=")
    with (if Str.char_in c "cn=" then Str.ltrim r "cn=" else String c r).
  rewrite Hc.
  apply ltrim_lower; [reflexivity|].
  apply (lowered_cut "" c r H), (char_in_ascii c "cn="); [reflexivity | exact Hc].
Qed.

(** Every token [extractCNFromDN] hands to its callback is in lower case:
    two callbacks that agree on such tokens are interchangeable. *)
Lemma extractCNFromDN_ext {S} d (cb1 cb2 : option jserr → option string → M S unit) s :
  (∀ v s', has_upper u v = false → cb1 None (Some v) s' = cb2 None (Some v) s') →
  extractCNFromDN u (Some d) cb1 s = extractCNFromDN u (Some d) cb2 s.
Proof.
  intros H. unfold extractCNFromDN.
  apply (each_ext (lowered u)).
  - apply words_lowered; [reflexivity | apply lowered_lower].
  - intros x s' Hx. destruct (Str.startsWith x "cn=") eqn:E; [|reflexivity].
    apply H, token_lower; assumption.
Qed.

Lemma extractCNFromDN_always {S} (I : S → Prop) d
    (cb : option jserr → option string → M S unit) :
  (∀ v, has_upper u v = false → always I (cb None (Some v))) →
  always I (extractCNFromDN u (Some d) cb).
Proof.
  intros H. unfold extractCNFromDN.
  pose proof (words_lowered (Str.toLowerCase u d) ","%char eq_refl (lowered_lower d)) as Hw.
  induction Hw as [|x r Hx _ IH]; simpl.
  - apply always_ret.
  - apply always_bind; [|intros _; exact IH].
    destruct (Str.startsWith x "cn=") eqn:E; [|apply always_ret].
    apply H, token_lower; assumption.
Qed.

End LowerCase.

Lemma memberObjects_lower dir entry :
  Forall (lower_member (dir_unicode dir)) (memberObjects_of dir entry).
Proof.
  unfold memberObjects_of.
  assert (Hx : ∀ value, always (Forall (lower_member (dir_unicode dir)))
            (extractCNFromDN (dir_unicode dir) (Some value) (λ _ valuedata,
               push {| cn := valuedata; dn := value |}))).
  { intros value. apply extractCNFromDN_always. intros v Hv l Hl. simpl.
    apply Forall_app. split; [exact Hl|]. constructor; [|constructor].
    intros v' [= <-]. exact Hv. }
  destruct (entry !! "member") as [[value|values]|].
  - apply Hx. constructor.
  - apply always_each; [exact Hx | constructor].
  - constructor.
Qed.

(** ** The operations, one by one *)

Lemma getUrl_selected dir cb w :
  getUrl dir (url (params (client w))) cb w =
  match selected_url dir w with
  | Some u => cb None u w
  | None => cb (Some (StrError "No valid url given")) None w
  end.
Proof.
  unfold getUrl, selected_url. destruct (url (params (client w))); reflexivity.
Qed.

Lemma compact_elem (s : string) (a : list (option string)) :
  s ∈ compact a ↔ Some s ∈ a ∧ s ≠ "".
Proof.
  unfold compact. rewrite list_elem_of_omap. split.
  - intros ([t|] & Hin & Ht); [|discriminate].
    destruct (String.eqb_spec t "") as [->|Hne]; [discriminate|].
    injection Ht as ->. split; assumption.
  - intros [Hin Hne]. exists (Some s). split; [exact Hin|].
    destruct (String.eqb_spec s "") as [->|_]; [done | reflexivity].
Qed.

(** A string url is answered as it is. *)
Lemma getUrl_string dir s cb w : getUrl dir (UrlString s) cb w = cb None (Some s) w.
Proof. reflexivity. Qed.

(** A draw below the length answers with a member of the compacted array. *)
Lemma getUrl_array_in_range dir a cb w :
  (dir_random dir (trace w) (length (compact a)) < length (compact a))%nat →
  ∃ s, s ∈ compact a ∧ getUrl dir (UrlArray a) cb w = cb None (Some s) w.
Proof.
  intros Hlt. unfold getUrl, random. cbv [mbind M_bind mret M_ret history].
  rewrite Nat.min_l by lia.
  destruct (lookup_lt_is_Some_2 (compact a) _ Hlt) as [s Hs].
  exists s. split; [eapply list_elem_of_lookup_2, Hs|]. rewrite Hs. reflexivity.
Qed.

(** A draw that reaches the length answers with [undefined]. *)
Lemma getUrl_array_out_of_range dir a cb w :
  (length (compact a) ≤ dir_random dir (trace w) (length (compact a)))%nat →
  getUrl dir (UrlArray a) cb w = cb None None w.
Proof.
  intros Hle. unfold getUrl, random. cbv [mbind M_bind mret M_ret history].
  rewrite Nat.min_r by lia. rewrite lookup_ge_None_2 by lia. reflexivity.
Qed.

Lemma createClients_connect dir cb w u :
  selected_url dir w = Some u →
  dir_create_throws dir u = false →
  createClients dir cb w = cb None (connect u w).
Proof.
  intros Hu Hc. unfold createClients.
  change ((this ≫= ?f) w) with (f (client w) w). cbv beta.
  rewrite getUrl_selected, Hu. simpl.
  unfold connect, createClient. rewrite Hc.
  destruct w as [[p mc mb uc ub] tr]; simpl.
  destruct mc, uc; reflexivity.
Qed.

(** Once the clients exist and [masterBound] is false, [bindMaster] sends
    the bind and passes on the answer. *)
Lemma bindMaster_binds dir cb w u :
  selected_url dir w = Some u →
  dir_create_throws dir u = false →
  masterBound (client w) = false →
  bindMaster dir cb w =
    cb (LdapError <$> dir_bind dir (trace (connect u w)) Master
                        (masterDn (params (client w))) (masterPw (params (client w))))
       (log [EvBind Master (masterDn (params (client w))) (masterPw (params (client w)))]
          (connect u w)).
Proof.
  intros Hu Hc Hb. unfold bindMaster.
  rewrite (createClients_connect _ _ _ _ Hu Hc).
  crush_world w; reflexivity.
Qed.

Lemma bindMaster_accepted dir cb w u :
  selected_url dir w = Some u →
  dir_create_throws dir u = false →
  masterBound (client w) = false →
  master_bind_answer dir u w = None →
  bindMaster dir cb w =
    cb None (log [EvBind Master (masterDn (params (client w))) (masterPw (params (client w)))]
               (connect u w)).
Proof.
  intros Hu Hc Hb Hbind. unfold master_bind_answer in Hbind.
  rewrite (bindMaster_binds _ _ _ _ Hu Hc Hb), Hbind. reflexivity.
Qed.

(** The run of [getMembersOfGroupDN] when the master bind is accepted and the
    search ends with status 0. *)
Lemma getMembers_status0 dir callback w u rs :
  selected_url dir w = Some u →
  dir_create_throws dir u = false →
  masterBound (client w) = false →
  master_bind_answer dir u w = None →
  group_search_answer dir u w = SearchStream rs (EndStatus 0) →
  getMembersOfGroupDN dir callback w =
    match rs with
    | [] => callback None None
    | [entry] => callback None (Some (memberObjects_of dir entry))
    | _ => callback (Some (StrError "Error: unexpected number of matches")) None
    end (log [EvBind Master (masterDn (params (client w))) (masterPw (params (client w)));
              EvSearch Master (groupSearchDN (params (client w)))
                (group_search (params (client w)))]
           (connect u w)).
Proof.
  intros Hu Hc Hb Hbind Hsearch. unfold getMembersOfGroupDN.
  rewrite (bindMaster_accepted _ _ _ _ Hu Hc Hb Hbind).
  unfold group_search_answer, group_search, log, connect in Hsearch.
  crush_world w; exec; rewrite Hsearch; exec.
  all: rewrite <- ?app_assoc; destruct rs as [|? [|? ?]]; reflexivity.
Qed.

(** The run of [authUserDn] when the user bind is accepted and the search
    ends with status 0. *)
Lemma authUserDn_status0 dir userDn password callback w u rs :
  selected_url dir w = Some u →
  dir_create_throws dir u = false →
  user_bind_answer dir u w userDn password = None →
  user_search_answer dir u w userDn password = SearchStream rs (EndStatus 0) →
  authUserDn dir userDn password callback w =
    match rs with
    | [] => callback None None
    | [entry] =>
        callback None (Some (pick entry (userSearchAttributes (params (client w)))))
    | _ => callback (Some (StrError "Error: unexpected number of matches")) None
    end (log [EvBind User userDn password;
              EvSearch User userDn (user_search (params (client w)));
              EvUnbind User]
           (connect u w)).
Proof.
  intros Hu Hc Hbind Hsearch. unfold authUserDn.
  rewrite (createClients_connect _ _ _ _ Hu Hc).
  unfold user_bind_answer, user_search_answer, user_search, log, connect in Hbind, Hsearch.
  crush_world w; exec; rewrite Hbind; exec; rewrite Hsearch; simpl; exec.
  all: rewrite <- ?app_assoc; destruct rs as [|? [|? ?]]; reflexivity.
Qed.

Lemma close_unbound dir cb w :
  masterBound (client w) = false → close dir cb w = close_without_unbind cb w.
Proof.
  intros Hb. unfold close, close_without_unbind. exec. rewrite Hb. reflexivity.
Qed.

Lemma where_cn_none result username :
  (∀ m, m ∈ default [] result → cn m ≠ Some username) →
  head (where_cn result username) = None.
Proof.
  intros H. unfold where_cn.
  induction (default [] result) as [|m r IH]; simpl; [reflexivity|].
  rewrite bool_decide_eq_false_2 by (apply H; left).
  apply IH. intros m' Hm'. apply H. right. exact Hm'.
Qed.

Lemma where_cn_upper u result username :
  has_upper u username = true → lower_result u result →
  head (where_cn result username) = None.
Proof.
  intros Hu Hr. apply where_cn_none. intros m Hm Hcn.
  unfold lower_result in Hr. rewrite Forall_forall in Hr.
  specialize (Hr m Hm username Hcn). congruence.
Qed.

(** The handler of [authUser] when no member matches. *)
Lemma authUser_handler_none dir username password callback w u rs :
  selected_url dir w = Some u →
  dir_create_throws dir u = false →
  masterBound (client w) = false →
  master_bind_answer dir u w = None →
  group_search_answer dir u w = SearchStream rs (EndStatus 0) →
  (rs = [] ∨ ∃ g, rs = [g] ∧ ∀ m, m ∈ memberObjects_of dir g → cn m ≠ Some username) →
  authUser dir username password callback w =
    callback (Some user_not_found) None
      (log [EvBind Master (masterDn (params (client w))) (masterPw (params (client w)));
            EvSearch Master (groupSearchDN (params (client w)))
              (group_search (params (client w)));
            EvClose]
         (connect u w)).
Proof.
  intros Hu Hc Hb Hbind Hsearch Hrs. unfold authUser.
  rewrite (getMembers_status0 _ _ _ _ _ Hu Hc Hb Hbind Hsearch).
  assert (Hclose : ∀ w' : World, masterBound (client w') = false →
            close dir (λ _, callback (Some user_not_found) None) w' =
            callback (Some user_not_found) None (log [EvClose] w')).
  { intros w' Hw'. rewrite close_unbound by exact Hw'. reflexivity. }
  assert (Hmb : masterBound (client (log
            [EvBind Master (masterDn (params (client w))) (masterPw (params (client w)));
             EvSearch Master (groupSearchDN (params (client w)))
               (group_search (params (client w)))] (connect u w))) = false).
  { crush_world w; reflexivity. }
  assert (Hnone : head (where_cn
            (match rs with [entry] => Some (memberObjects_of dir entry) | _ => None end)
            username) = None).
  { apply where_cn_none. destruct Hrs as [->|(g & -> & Hg)]; simpl.
    - intros m Hm. inversion Hm.
    - exact Hg. }
  destruct Hrs as [->|(g & -> & Hg)];
    cbn [when truthy]; rewrite ret_bind; cbv beta zeta;
    rewrite Hnone, Hclose by exact Hmb;
    unfold log; simpl; rewrite <- app_assoc; reflexivity.
Qed.

Lemma pick_lookup (object : Entry) (keys : list string) (k : string) :
  pick object keys !! k = if decide (k ∈ keys) then object !! k else None.
Proof.
  unfold pick. destruct (decide (k ∈ keys)) as [Hk|Hk].
  - destruct (object !! k) as [v|] eqn:Hv.
    + apply map_lookup_filter_Some. split; [exact Hv | exact Hk].
    + apply map_lookup_filter_None. left. exact Hv.
  - apply map_lookup_filter_None. right. intros v _. exact Hk.
Qed.

Lemma connect_trace u w :
  ∃ cs, trace (connect u w) = (trace w ++ cs)%list
        ∧ ∀ e, e ∈ cs → ∃ r, e = EvCreateClient r u.
Proof.
  destruct w as [[p [mc|] mb [uc|] ub] tr]; unfold connect; simpl.
  - exists []. rewrite app_nil_r. split; [reflexivity|]. intros e He. inversion He.
  - exists [EvCreateClient User u]. split; [reflexivity|].
    intros e ->%list_elem_of_singleton. eauto.
  - exists [EvCreateClient Master u]. split; [reflexivity|].
    intros e ->%list_elem_of_singleton. eauto.
  - exists [EvCreateClient Master u; EvCreateClient User u].
    rewrite <- app_assoc. split; [reflexivity|].
    intros e He. rewrite !elem_of_cons, elem_of_nil in He.
    destruct He as [->|[->|[]]]; eauto.
Qed.

(** ** Continuations that agree *)

Lemma getUrl_ext dir paramUrl cb1 cb2 w :
  (∀ err u w', cb1 err u w' = cb2 err u w') →
  getUrl dir paramUrl cb1 w = getUrl dir paramUrl cb2 w.
Proof. intros H. unfold getUrl. ext_with H. Qed.

Lemma createClients_ext dir cb1 cb2 w :
  (∀ err w', cb1 err w' = cb2 err w') →
  createClients dir cb1 w = createClients dir cb2 w.
Proof.
  intros H. unfold createClients.
  apply bind_ext; [reflexivity|]. intros self w'. apply getUrl_ext.
  ext_with H.
Qed.

Lemma ldap_bind_ext dir r c bdn pw cb1 cb2 w :
  (∀ err w', cb1 err w' = cb2 err w') →
  ldap_bind dir r c bdn pw cb1 w = ldap_bind dir r c bdn pw cb2 w.
Proof. intros H. unfold ldap_bind. ext_with H. Qed.

Lemma ldap_search_ext dir r c base opts cb1 cb2 w :
  (∀ err res w', cb1 err res w' = cb2 err res w') →
  ldap_search dir r c base opts cb1 w = ldap_search dir r c base opts cb2 w.
Proof. intros H. unfold ldap_search. ext_with H. Qed.

Lemma bindMaster_ext dir cb1 cb2 w :
  (∀ err w', cb1 err w' = cb2 err w') →
  bindMaster dir cb1 w = bindMaster dir cb2 w.
Proof.
  intros H. unfold bindMaster. apply createClients_ext. intros err w'.
  unfold when. ext_with H. apply ldap_bind_ext, H.
Qed.

(** [getMembersOfGroupDN] only ever passes on lower-case members. *)
Lemma getMembers_ext_lower dir cb1 cb2 w :
  (∀ err result w', lower_result (dir_unicode dir) result →
     cb1 err result w' = cb2 err result w') →
  getMembersOfGroupDN dir cb1 w = getMembersOfGroupDN dir cb2 w.
Proof.
  intros H. unfold getMembersOfGroupDN.
  assert (Hnone : ∀ err w', cb1 err None w' = cb2 err None w').
  { intros. apply H. constructor. }
  apply bindMaster_ext. intros err w'.
  apply bind_ext; [unfold when; destruct (truthy err); [apply Hnone | reflexivity]|].
  intros _ w1. apply bind_ext; [reflexivity|]. intros self w2.
  apply ldap_search_ext. intros err' res w3.
  apply bind_ext; [unfold when; destruct (truthy err'); [apply Hnone | reflexivity]|].
  intros _ w4. destruct res as [[rs [e|status]]|]; [apply Hnone | | reflexivity].
  destruct (negb (status =? 0)%Z); [apply Hnone|].
  destruct rs as [|entry [|? ?]]; [apply Hnone | | apply Hnone].
  apply H. apply memberObjects_lower.
Qed.

(** ** The bound flags *)

Create HintDb keeps.

#[local] Hint Resolve always_ret always_throw : keeps.

(** One step of a proof that a computation keeps [never_bound]: the
    primitives that leave the flags and send no master unbind are settled
    on the spot. *)
Ltac keep_step :=
  lazymatch goal with
  | |- ∀ _, _ => intro
  | |- always _ (_ ≫= _) => apply always_bind
  | |- always _ (when _ _) => apply always_when
  | |- always _ this => intros ? ?; assumption
  | |- always _ history => intros ? ?; assumption
  | |- always _ (update (set_masterClient _)) => intros [? ?] ?; assumption
  | |- always _ (update (set_userClient _)) => intros [? ?] ?; assumption
  | |- always _ (emit _) =>
      intros [? ?] [? ?]; split; [assumption|]; simpl in *;
      rewrite elem_of_app, list_elem_of_singleton; intros [?|?];
      [auto | discriminate]
  | |- always _ (report _ _ _) => unfold report
  | |- always _ (report1 _) => unfold report1
  | |- always _ (createClient _ _ _) => unfold createClient
  | |- always _ (random _ _) => unfold random
  | |- always _ (ldap_bind _ _ _ _ _ _) => unfold ldap_bind
  | |- always _ (ldap_search _ _ _ _ _ _) => unfold ldap_search
  | |- always _ (ldap_unbind _ User _ _) => unfold ldap_unbind
  | |- always _ (match ?x with _ => _ end) => destruct x
  | |- always _ (if ?x then _ else _) => destruct x
  | |- _ => solve [auto with keeps]
  end.

Ltac keep_all := repeat keep_step.

Lemma never_bound_getUrl dir paramUrl cb :
  (∀ err u, always never_bound (cb err u)) →
  always never_bound (getUrl dir paramUrl cb).
Proof. unfold getUrl. keep_all. Qed.

Lemma never_bound_createClients dir cb :
  (∀ err, always never_bound (cb err)) →
  always never_bound (createClients dir cb).
Proof.
  intros H. unfold createClients. apply always_bind; [keep_all|].
  intros self. apply never_bound_getUrl. keep_all.
Qed.

Lemma never_bound_bindMaster dir cb :
  (∀ err, always never_bound (cb err)) →
  always never_bound (bindMaster dir cb).
Proof.
  intros H. unfold bindMaster. apply never_bound_createClients.
  keep_all.
Qed.

Lemma never_bound_close dir cb :
  (∀ err, always never_bound (cb err)) →
  always never_bound (close dir cb).
Proof.
  intros H w Hw. rewrite close_unbound by apply Hw.
  revert w Hw. change (always never_bound (close_without_unbind cb)).
  unfold close_without_unbind. keep_all.
Qed.

Lemma never_bound_extractCNFromDN u d cb :
  (∀ err v, always never_bound (cb err v)) →
  always never_bound (extractCNFromDN u d cb).
Proof.
  intros H. unfold extractCNFromDN. destruct d; [|apply H].
  apply always_each. keep_all.
Qed.

Lemma never_bound_getMembers dir cb :
  (∀ err result, always never_bound (cb err result)) →
  always never_bound (getMembersOfGroupDN dir cb).
Proof.
  intros H. unfold getMembersOfGroupDN. apply never_bound_bindMaster.
  keep_all.
Qed.

Lemma never_bound_authUserDn dir userDn password cb :
  (∀ err user, always never_bound (cb err user)) →
  always never_bound (authUserDn dir userDn password cb).
Proof.
  intros H. unfold authUserDn. apply never_bound_createClients.
  keep_all.
Qed.

Lemma never_bound_authUser dir username password cb :
  (∀ err user, always never_bound (cb err user)) →
  always never_bound (authUser dir username password cb).
Proof.
  intros H. unfold authUser. apply never_bound_getMembers.
  keep_all.
  - apply never_bound_authUserDn. intros. apply never_bound_close. keep_all.
  - apply never_bound_close. keep_all.
Qed.

Lemma never_bound_perform dir c : always never_bound (perform dir c).
Proof.
  destruct c; simpl.
  - apply never_bound_createClients. keep_all.
  - apply never_bound_getUrl. keep_all.
  - apply never_bound_bindMaster. keep_all.
  - apply never_bound_close. keep_all.
  - apply never_bound_extractCNFromDN. keep_all.
  - apply never_bound_getMembers. keep_all.
  - apply never_bound_authUserDn. keep_all.
  - apply never_bound_authUser. keep_all.
Qed.

Lemma reachable_never_bound dir p w : reachable dir p w → never_bound w.
Proof.
  induction 1 as [|w c _ IH].
  - repeat split. simpl. apply not_elem_of_nil.
  - apply never_bound_perform, IH.
Qed.

(** From a world with clear flags [createClients] hands over worlds with
    clear flags. *)
Lemma createClients_ext_clear dir cb1 cb2 w :
  flags_clear w →
  (∀ err w', flags_clear w' → cb1 err w' = cb2 err w') →
  createClients dir cb1 w = createClients dir cb2 w.
Proof.
  intros Hw H. unfold createClients, getUrl.
  destruct w as [[p mc mb uc ub] tr]. destruct Hw as [Hm Hu]. simpl in Hm, Hu. subst.
  exec. destruct (url p); exec; simpl.
  - destruct mc, uc; repeat (exec; simpl; try destruct (dir_create_throws dir _));
      try reflexivity; apply H; split; reflexivity.
  - destruct mc, uc; repeat (exec; simpl; try destruct (dir_create_throws dir _));
      try reflexivity; apply H; split; reflexivity.
  - apply H; split; reflexivity.
Qed.

Lemma bindMaster_clear dir cb w :
  flags_clear w →
  (∀ err, always flags_clear (cb err)) →
  bindMaster dir cb w = bindMaster_always_binds dir cb w.
Proof.
  intros Hw Hcb. unfold bindMaster, bindMaster_always_binds.
  apply createClients_ext_clear; [exact Hw|]. intros err w' Hw'.
  unfold mbind at 1 3, M_bind.
  assert (Hf : flags_clear (final (when (truthy err) (cb err) w'))).
  { destruct (truthy err); simpl; [apply Hcb, Hw' | exact Hw']. }
  destruct (when (truthy err) (cb err) w') as [[] w1|e w1]; [|reflexivity].
  simpl in Hf. exec. destruct Hf as [-> _]. reflexivity.
Qed.

(** * The specification, sentence by sentence *)

Example extract_jdoe u :
  extracted u (Some "CN=jdoe,OU=Users,DC=x,DC=com") = [(None, Some "jdoe")].
Proof. reflexivity. Qed.

Example healthy_run :
  trace (final (Fixture.run Fixture.healthy "jdoe" "pw")) =
    [EvCreateClient Master (Some "ldap://a");
     EvCreateClient User (Some "ldap://a");
     EvBind Master "CN=mymaster,OU=IT,DC=x,DC=com" "s3cr3t";
     EvSearch Master "CN=MYAPP,OU=Groups,DC=x,DC=com" (group_search Fixture.single);
     EvBind User Fixture.jdoe_dn "pw";
     EvSearch User Fixture.jdoe_dn (user_search Fixture.single);
     EvUnbind User;
     EvClose;
     EvCallback None (VEntry {[ "cn" := AttrString "jdoe";
                                "mail" := AttrString "jdoe@x.com" ]})].
Proof. vm_compute. reflexivity. Qed.

(** Lower-casing reaches beyond ASCII: the member "CN=Änne,..." has the
    [cn] "änne"; the user is found under that name and not under "Änne". *)
Example extract_aenne :
  extracted Str.latin1 (Some Fixture.aenne_dn) = [(None, Some "änne")].
Proof. reflexivity. Qed.

Example aenne_runs :
  trace (final (Fixture.run Fixture.umlaut "änne" "pw")) =
    [EvCreateClient Master (Some "ldap://a");
     EvCreateClient User (Some "ldap://a");
     EvBind Master "CN=mymaster,OU=IT,DC=x,DC=com" "s3cr3t";
     EvSearch Master "CN=MYAPP,OU=Groups,DC=x,DC=com" (group_search Fixture.single);
     EvBind User Fixture.aenne_dn "pw";
     EvSearch User Fixture.aenne_dn (user_search Fixture.single);
     EvUnbind User;
     EvClose;
     EvCallback None (VEntry {[ "cn" := AttrString "Änne";
                                "mail" := AttrString "aenne@x.com" ]})]
  ∧ trace (final (Fixture.run Fixture.umlaut "Änne" "pw")) =
    [EvCreateClient Master (Some "ldap://a");
     EvCreateClient User (Some "ldap://a");
     EvBind Master "CN=mymaster,OU=IT,DC=x,DC=com" "s3cr3t";
     EvSearch Master "CN=MYAPP,OU=Groups,DC=x,DC=com" (group_search Fixture.single);
     EvClose;
     EvCallback (Some user_not_found) VUndefined].
Proof. split; vm_compute; reflexivity. Qed.

Example healthy_run_closes_first :
  closes_before_reporting (trace (final (Fixture.run Fixture.healthy "jdoe" "pw"))) = true.
Proof. reflexivity. Qed.

(** A wrong user password: [close] comes first, then the error, then a
    second invocation without error; the search is sent all the same. *)
Example user_rejected_run :
  Fixture.run Fixture.user_rejected "jdoe" "pw" =
    Done tt
      (log [EvBind Master "CN=mymaster,OU=IT,DC=x,DC=com" "s3cr3t";
            EvSearch Master "CN=MYAPP,OU=Groups,DC=x,DC=com" (group_search Fixture.single);
            EvBind User Fixture.jdoe_dn "pw";
            EvClose;
            EvCallback (Some (LdapError "InvalidCredentialsError")) VUndefined;
            EvCallback None VUndefined;
            EvSearch User Fixture.jdoe_dn (user_search Fixture.single);
            EvClose;
            EvCallback (Some (LdapError "OperationsError")) VUndefined;
            EvCallback None VUndefined]
         (connect (Some "ldap://a") (initial Fixture.single)))
  ∧ closes_before_reporting
      (trace (final (Fixture.run Fixture.user_rejected "jdoe" "pw"))) = true.
Proof. split; reflexivity. Qed.

(** C1 (fails on the code).  When the master bind is rejected, [authUser]
    hands the bind error to the caller before [close] has been invoked; it
    then closes, reports "user not found", and goes on to search. *)
Theorem authUser_reports_bind_error_before_close :
  trace (final (Fixture.run Fixture.master_rejected "jdoe" "pw")) =
    [EvCreateClient Master (Some "ldap://a");
     EvCreateClient User (Some "ldap://a");
     EvBind Master "CN=mymaster,OU=IT,DC=x,DC=com" "s3cr3t";
     EvCallback (Some (LdapError "InvalidCredentialsError")) VUndefined;
     EvClose;
     EvCallback (Some user_not_found) VUndefined;
     EvSearch Master "CN=MYAPP,OU=Groups,DC=x,DC=com" (group_search Fixture.single);
     EvCallback (Some (LdapError "OperationsError")) VUndefined;
     EvClose;
     EvCallback (Some user_not_found) VUndefined]
  ∧ closes_before_reporting
      (trace (final (Fixture.run Fixture.master_rejected "jdoe" "pw"))) = false.
Proof. split; reflexivity. Qed.

(** C2 (fails on the code).  [getUrl] answers [undefined] without an error
    for an array that is empty once compacted, and also when [_.random] draws
    the length of a non-empty array. *)
Theorem getUrl_answers_undefined :
  (∀ dir cb w, getUrl dir (UrlArray [None; Some ""]) cb w = cb None None w)
  ∧ (∀ cb w, getUrl Fixture.draws_one (UrlArray [Some "ldap://a"]) cb w = cb None None w).
Proof. split; reflexivity. Qed.

(** C3 (fails on the code).  [_.ltrim(dndata, 'cn=')] removes every leading
    character among c, n and =, so the token of "CN=nancy,..." is "ancy", and
    so is the [cn] of the member object built from it. *)
Theorem extractCN_trims_a_character_set dir :
  extracted (dir_unicode dir) (Some "CN=nancy,OU=Users,DC=x,DC=com")
  = [(None, Some "ancy")]
  ∧ memberObjects_of dir {[ "member" := AttrString "CN=nancy,OU=Users,DC=x,DC=com" ]} =
      [{| cn := Some "ancy"; dn := "CN=nancy,OU=Users,DC=x,DC=com" |}].
Proof. split; reflexivity. Qed.

(** C4, as stated, fails at the empty string: no error is produced. *)
Lemma extractCN_empty_dn_is_silent :
  (∀ u, extracted u (Some "") = [])
  ∧ ¬ ∃ u e v, (Some e, v) ∈ extracted u (Some "").
Proof.
  assert (He : ∀ u, extracted u (Some "") = []) by reflexivity.
  split; [exact He|]. intros (u & e & v & H). rewrite He in H. inversion H.
Qed.

(** C4 (amended).  For an absent dn, [extractCNFromDN] invokes its callback
    once, with the error "No DN given" and no token; for the empty string it
    does not invoke the callback at all. *)
Theorem extractCN_missing_dn {S} u (cb : option jserr → option string → M S unit) (s : S) :
  extractCNFromDN u None cb s = cb (Some (StrError "No DN given")) None s
  ∧ extractCNFromDN u (Some "") cb s = Done tt s.
Proof. split; reflexivity. Qed.

(** C5, as stated, fails: with no matching group entry the callback gets
    [undefined], not an empty array. *)
Lemma getMembers_no_entry_gives_undefined :
  trace (final (getMembersOfGroupDN Fixture.no_group (report VMembers)
                  (initial Fixture.single))) =
    [EvCreateClient Master (Some "ldap://a");
     EvCreateClient User (Some "ldap://a");
     EvBind Master "CN=mymaster,OU=IT,DC=x,DC=com" "s3cr3t";
     EvSearch Master "CN=MYAPP,OU=Groups,DC=x,DC=com" (group_search Fixture.single);
     EvCallback None VUndefined]
  ∧ EvCallback None (VMembers []) ∉
      trace (final (getMembersOfGroupDN Fixture.no_group (report VMembers)
                      (initial Fixture.single))).
Proof.
  assert (Ht : trace (final (getMembersOfGroupDN Fixture.no_group (report VMembers)
                  (initial Fixture.single))) =
    [EvCreateClient Master (Some "ldap://a");
     EvCreateClient User (Some "ldap://a");
     EvBind Master "CN=mymaster,OU=IT,DC=x,DC=com" "s3cr3t";
     EvSearch Master "CN=MYAPP,OU=Groups,DC=x,DC=com" (group_search Fixture.single);
     EvCallback None VUndefined]) by reflexivity.
  split; [exact Ht|]. rewrite Ht.
  rewrite !elem_of_cons, elem_of_nil. intuition discriminate.
Qed.

(** C5 (amended).  After an accepted master bind, a group search that ends
    with status 0 and no entry makes [getMembersOfGroupDN] invoke its callback
    once, with no error and with no result ([undefined]); [_.where] in
    [authUser] finds nothing in it. *)
Theorem getMembers_no_entry dir callback w u :
  selected_url dir w = Some u →
  dir_create_throws dir u = false →
  masterBound (client w) = false →
  master_bind_answer dir u w = None →
  group_search_answer dir u w = SearchStream [] (EndStatus 0) →
  getMembersOfGroupDN dir callback w =
    callback None None
      (log [EvBind Master (masterDn (params (client w))) (masterPw (params (client w)));
            EvSearch Master (groupSearchDN (params (client w)))
              (group_search (params (client w)))]
         (connect u w))
  ∧ ∀ username, where_cn None username = [].
Proof.
  intros Hu Hc Hb Hbind Hsearch. split; [|reflexivity].
  exact (getMembers_status0 _ _ _ _ _ Hu Hc Hb Hbind Hsearch).
Qed.

Lemma getMembers_no_entry_witness :
  getMembersOfGroupDN Fixture.no_group (report VMembers) (initial Fixture.single) =
    report VMembers None None
      (log [EvBind Master "CN=mymaster,OU=IT,DC=x,DC=com" "s3cr3t";
            EvSearch Master "CN=MYAPP,OU=Groups,DC=x,DC=com" (group_search Fixture.single)]
         (connect (Some "ldap://a") (initial Fixture.single)))
  ∧ ∀ username, where_cn None username = [].
Proof.
  apply (getMembers_no_entry Fixture.no_group (report VMembers)
           (initial Fixture.single) (Some "ldap://a"));
    reflexivity.
Defined.

(** C6, as stated, fails: with no matching user entry the callback of
    [authUserDn] gets neither an error nor a user object. *)
Lemma authUserDn_no_entry_is_not_an_error :
  trace (final (authUserDn Fixture.no_user Fixture.jdoe_dn "pw" (report VEntry)
                  (initial Fixture.single))) =
    [EvCreateClient Master (Some "ldap://a");
     EvCreateClient User (Some "ldap://a");
     EvBind User Fixture.jdoe_dn "pw";
     EvSearch User Fixture.jdoe_dn (user_search Fixture.single);
     EvUnbind User;
     EvCallback None VUndefined]
  ∧ ¬ ∃ e v, EvCallback (Some e) v ∈
        trace (final (authUserDn Fixture.no_user Fixture.jdoe_dn "pw" (report VEntry)
                        (initial Fixture.single))).
Proof.
  assert (Ht : trace (final (authUserDn Fixture.no_user Fixture.jdoe_dn "pw"
                               (report VEntry) (initial Fixture.single))) =
    [EvCreateClient Master (Some "ldap://a");
     EvCreateClient User (Some "ldap://a");
     EvBind User Fixture.jdoe_dn "pw";
     EvSearch User Fixture.jdoe_dn (user_search Fixture.single);
     EvUnbind User;
     EvCallback None VUndefined]) by reflexivity.
  split; [exact Ht|]. rewrite Ht. intros (e & v & H).
  rewrite !elem_of_cons, elem_of_nil in H. intuition discriminate.
Qed.

(** C6 (amended).  After an accepted user bind and a search that ends with
    status 0, [authUserDn] unbinds the user client and then invokes its
    callback once: with neither error nor user object when no entry matched,
    with the error "Error: unexpected number of matches" when more than one
    did. *)
Theorem authUserDn_match_count dir userDn password callback w u rs :
  selected_url dir w = Some u →
  dir_create_throws dir u = false →
  user_bind_answer dir u w userDn password = None →
  user_search_answer dir u w userDn password = SearchStream rs (EndStatus 0) →
  length rs ≠ 1 →
  authUserDn dir userDn password callback w =
    callback
      match rs with
      | [] => None
      | _ => Some (StrError "Error: unexpected number of matches")
      end
      None
      (log [EvBind User userDn password;
            EvSearch User userDn (user_search (params (client w)));
            EvUnbind User]
         (connect u w)).
Proof.
  intros Hu Hc Hbind Hsearch Hlen.
  rewrite (authUserDn_status0 _ _ _ _ _ _ _ Hu Hc Hbind Hsearch).
  destruct rs as [|? [|? ?]]; [reflexivity | done | reflexivity].
Qed.

Lemma authUserDn_match_count_witness :
  authUserDn Fixture.no_user Fixture.jdoe_dn "pw" (report VEntry) (initial Fixture.single) =
    report VEntry None None
      (log [EvBind User Fixture.jdoe_dn "pw";
            EvSearch User Fixture.jdoe_dn (user_search Fixture.single);
            EvUnbind User]
         (connect (Some "ldap://a") (initial Fixture.single))).
Proof.
  apply (authUserDn_match_count Fixture.no_user Fixture.jdoe_dn "pw" (report VEntry)
           (initial Fixture.single) (Some "ldap://a") []);
    first [reflexivity | simpl; lia].
Defined.

(** C7.  After an accepted user bind, a search that ends with status 0 and
    exactly one entry makes [authUserDn] unbind the user client and then hand
    over the entry restricted to the keys listed in [userSearchAttributes]:
    a listed key keeps the value it has in the entry, any other key is gone. *)
Theorem authUserDn_single_entry dir userDn password callback w u entry :
  selected_url dir w = Some u →
  dir_create_throws dir u = false →
  user_bind_answer dir u w userDn password = None →
  user_search_answer dir u w userDn password = SearchStream [entry] (EndStatus 0) →
  let keys := userSearchAttributes (params (client w)) in
  authUserDn dir userDn password callback w =
    callback None (Some (pick entry keys))
      (log [EvBind User userDn password;
            EvSearch User userDn (user_search (params (client w)));
            EvUnbind User]
         (connect u w))
  ∧ (∀ k, is_Some (pick entry keys !! k) → k ∈ keys)
  ∧ (∀ k, k ∈ keys → pick entry keys !! k = entry !! k)
  ∧ (∀ k, k ∉ keys → pick entry keys !! k = None).
Proof.
  intros Hu Hc Hbind Hsearch keys. split; [|repeat split].
  - exact (authUserDn_status0 _ _ _ _ _ _ _ Hu Hc Hbind Hsearch).
  - intros k [v Hv]. rewrite pick_lookup in Hv. by destruct (decide (k ∈ keys)).
  - intros k Hk. rewrite pick_lookup. by destruct (decide (k ∈ keys)).
  - intros k Hk. rewrite pick_lookup. by destruct (decide (k ∈ keys)).
Qed.

Lemma authUserDn_single_entry_witness :
  authUserDn Fixture.healthy Fixture.jdoe_dn "pw" (report VEntry) (initial Fixture.single) =
    report VEntry None (Some (pick Fixture.jdoe ["cn"; "mail"]))
      (log [EvBind User Fixture.jdoe_dn "pw";
            EvSearch User Fixture.jdoe_dn (user_search Fixture.single);
            EvUnbind User]
         (connect (Some "ldap://a") (initial Fixture.single)))
  ∧ (∀ k, is_Some (pick Fixture.jdoe ["cn"; "mail"] !! k) → k ∈ ["cn"; "mail"])
  ∧ (∀ k, k ∈ ["cn"; "mail"] → pick Fixture.jdoe ["cn"; "mail"] !! k = Fixture.jdoe !! k)
  ∧ (∀ k, k ∉ ["cn"; "mail"] → pick Fixture.jdoe ["cn"; "mail"] !! k = None).
Proof.
  apply (authUserDn_single_entry Fixture.healthy Fixture.jdoe_dn "pw" (report VEntry)
           (initial Fixture.single) (Some "ldap://a") Fixture.jdoe);
    reflexivity.
Defined.

(** C8.  When the master bind is accepted, the group search ends with status
    0 and at most one entry, and no member object carries the given username
    as its [cn], [authUser] invokes [close] and then its callback, once, with
    the error "Error: User not found"; it sends no bind on the user client. *)
Theorem authUser_unknown_user dir username password callback w u rs :
  selected_url dir w = Some u →
  dir_create_throws dir u = false →
  masterBound (client w) = false →
  master_bind_answer dir u w = None →
  group_search_answer dir u w = SearchStream rs (EndStatus 0) →
  (rs = [] ∨ ∃ g, rs = [g] ∧ ∀ m, m ∈ memberObjects_of dir g → cn m ≠ Some username) →
  let w' :=
    log [EvBind Master (masterDn (params (client w))) (masterPw (params (client w)));
         EvSearch Master (groupSearchDN (params (client w)))
           (group_search (params (client w)));
         EvClose]
      (connect u w) in
  authUser dir username password callback w = callback (Some user_not_found) None w'
  ∧ (∀ d pw, EvBind User d pw ∈ trace w' → EvBind User d pw ∈ trace w).
Proof.
  intros Hu Hc Hb Hbind Hsearch Hrs w'. split.
  - exact (authUser_handler_none _ _ _ _ _ _ _ Hu Hc Hb Hbind Hsearch Hrs).
  - intros d pw. subst w'. unfold log; simpl.
    destruct (connect_trace u w) as (cs & -> & Hcs).
    rewrite !elem_of_app, !elem_of_cons, elem_of_nil.
    intros [[H|H]|H]; [exact H | | intuition discriminate].
    destruct (Hcs _ H) as [r Hr]. discriminate.
Qed.

Lemma authUser_unknown_user_witness :
  let w' :=
    log [EvBind Master "CN=mymaster,OU=IT,DC=x,DC=com" "s3cr3t";
         EvSearch Master "CN=MYAPP,OU=Groups,DC=x,DC=com" (group_search Fixture.single);
         EvClose]
      (connect (Some "ldap://a") (initial Fixture.single)) in
  authUser Fixture.healthy "nobody" "x" (report VEntry) (initial Fixture.single) =
    report VEntry (Some user_not_found) None w'
  ∧ (∀ d pw, EvBind User d pw ∈ trace w' →
       EvBind User d pw ∈ trace (initial Fixture.single)).
Proof.
  apply (authUser_unknown_user Fixture.healthy "nobody" "x" (report VEntry)
           (initial Fixture.single) (Some "ldap://a") [Fixture.group]);
    try reflexivity.
  right. exists Fixture.group. split; [reflexivity|].
  assert (He : memberObjects_of Fixture.healthy Fixture.group =
                 [{| cn := Some "jdoe"; dn := Fixture.jdoe_dn |}]) by reflexivity.
  intros m Hm. rewrite He in Hm. apply list_elem_of_singleton in Hm.
  subst m. discriminate.
Defined.

(** C9.  A new client has both flags false.  In every world an instance can
    reach, both flags are still false and no unbind of the master client has
    been sent; there [bindMaster] runs as if its test of [masterBound] were
    not written: it goes on to the bind call, and with the clients in place
    it sends the bind and passes on the directory's answer; and [close] runs
    as if its unbind branch were not written. *)
Theorem flags_stay_false dir p w :
  reachable dir p w →
  flags_clear (initial p)
  ∧ never_bound w
  ∧ (∀ cb, (∀ err, always flags_clear (cb err)) →
       bindMaster dir cb w = bindMaster_always_binds dir cb w)
  ∧ (∀ cb u, selected_url dir w = Some u → dir_create_throws dir u = false →
       bindMaster dir cb w =
         cb (LdapError <$> dir_bind dir (trace (connect u w)) Master
                             (masterDn (params (client w))) (masterPw (params (client w))))
            (log [EvBind Master (masterDn (params (client w)))
                    (masterPw (params (client w)))]
               (connect u w)))
  ∧ (∀ cb, close dir cb w = close_without_unbind cb w).
Proof.
  intros Hw. destruct (reachable_never_bound _ _ _ Hw) as [Hf Hu].
  split; [split; reflexivity|]. split; [split; assumption|].
  split; [|split].
  - intros cb Hcb. apply bindMaster_clear; assumption.
  - intros cb u Hsel Hc. apply bindMaster_binds; [assumption..|apply Hf].
  - intros cb. apply close_unbound, Hf.
Qed.

Lemma flags_stay_false_witness :
  let w := final (perform Fixture.healthy (CallAuthUser "jdoe" "pw") (initial Fixture.single)) in
  flags_clear (initial Fixture.single)
  ∧ never_bound w
  ∧ bindMaster Fixture.healthy report1 w = bindMaster_always_binds Fixture.healthy report1 w
  ∧ bindMaster Fixture.healthy report1 w =
      report1 None (log [EvBind Master "CN=mymaster,OU=IT,DC=x,DC=com" "s3cr3t"] w)
  ∧ close Fixture.healthy report1 w = close_without_unbind report1 w.
Proof.
  intros w.
  destruct (flags_stay_false Fixture.healthy Fixture.single w
              (reach_call _ _ _ (CallAuthUser "jdoe" "pw") (reach_initial _ _)))
    as (H1 & H2 & H3 & H4 & H5).
  split; [exact H1|]. split; [exact H2|]. split; [|split].
  - apply H3. intros err [c tr] H. exact H.
  - apply (H4 report1 (Some "ldap://a")); reflexivity.
  - apply H5.
Defined.

(** C10.  For a username with an upper-case character, one that
    lower-casing changes, [authUser] runs as if the branch that calls
    [authUserDn] were not written: whatever [getMembersOfGroupDN] passes on,
    no member matches, because every [cn] is cut out of a lower-cased DN and
    is in lower case itself.  When the group resolution succeeds the caller
    gets "Error: User not found". *)
Theorem authUser_upper_case_username dir username password callback w :
  has_upper (dir_unicode dir) username = true →
  authUser dir username password callback w = authUser_not_found dir callback w
  ∧ (∀ u rs,
       selected_url dir w = Some u →
       dir_create_throws dir u = false →
       masterBound (client w) = false →
       master_bind_answer dir u w = None →
       group_search_answer dir u w = SearchStream rs (EndStatus 0) →
       (length rs ≤ 1)%nat →
       authUser dir username password callback w =
         callback (Some user_not_found) None
           (log [EvBind Master (masterDn (params (client w))) (masterPw (params (client w)));
                 EvSearch Master (groupSearchDN (params (client w)))
                   (group_search (params (client w)));
                 EvClose]
              (connect u w))).
Proof.
  intros Hup. split.
  - unfold authUser, authUser_not_found. apply getMembers_ext_lower.
    intros err result w' Hr. apply bind_ext; [reflexivity|]. intros _ w1.
    cbv zeta. rewrite (where_cn_upper (dir_unicode dir)) by assumption. reflexivity.
  - intros u rs Hu Hc Hb Hbind Hsearch Hlen.
    apply (authUser_handler_none _ _ _ _ _ _ rs); try assumption.
    destruct rs as [|g [|? ?]]; [left; reflexivity | right | simpl in Hlen; lia].
    exists g. split; [reflexivity|]. intros m Hm Hcn.
    pose proof (memberObjects_lower dir g) as Hl. rewrite Forall_forall in Hl.
    specialize (Hl m Hm username Hcn). congruence.
Qed.

Lemma authUser_upper_case_username_witness :
  authUser Fixture.umlaut "Änne" "pw" (report VEntry) (initial Fixture.single) =
    authUser_not_found Fixture.umlaut (report VEntry) (initial Fixture.single)
  ∧ authUser Fixture.umlaut "Änne" "pw" (report VEntry) (initial Fixture.single) =
      report VEntry (Some user_not_found) None
        (log [EvBind Master "CN=mymaster,OU=IT,DC=x,DC=com" "s3cr3t";
              EvSearch Master "CN=MYAPP,OU=Groups,DC=x,DC=com" (group_search Fixture.single);
              EvClose]
           (connect (Some "ldap://a") (initial Fixture.single))).
Proof.
  destruct (authUser_upper_case_username Fixture.umlaut "Änne" "pw" (report VEntry)
              (initial Fixture.single) eq_refl) as [H1 H2].
  split; [exact H1|].
  apply (H2 (Some "ldap://a") [Fixture.staff]);
    first [reflexivity | simpl; lia].
Defined.

(** * Further properties of the code *)

(** ** createClients and getUrl *)

Lemma selected_url_not_other dir w u :
  selected_url dir w = Some u → url (params (client w)) ≠ UrlOther.
Proof. unfold selected_url. intros H Hu. rewrite Hu in H. discriminate. Qed.

Lemma createClients_connected dir cb w :
  connected w → url (params (client w)) ≠ UrlOther →
  createClients dir cb w = cb None w.
Proof.
  intros [[mc Hm] [uc Hu]] Hurl. unfold createClients.
  destruct w as [[p m mb c ub] tr]; simpl in *; subst.
  unfold getUrl. exec. destruct (url p); [reflexivity | reflexivity | done].
Qed.

Lemma connect_connected u w : connected (connect u w).
Proof.
  destruct w as [[p [mc|] mb [uc|] ub] tr]; unfold connect, connected; simpl; eauto.
Qed.

Lemma connect_params u w : params (client (connect u w)) = params (client w).
Proof. destruct w as [[p [mc|] mb [uc|] ub] tr]; reflexivity. Qed.

Lemma connect_masterBound u w :
  masterBound (client (connect u w)) = masterBound (client w).
Proof. destruct w as [[p [mc|] mb [uc|] ub] tr]; reflexivity. Qed.

Lemma connect_id u w : connected w → connect u w = w.
Proof.
  intros [[mc Hm] [uc Hu]]. destruct w as [[p m mb c ub] tr]; simpl in *; subst.
  reflexivity.
Qed.

(** X1.  Connect once, reuse: on an instance that has both clients and a url
    that is an array or a string, [createClients] creates nothing, changes
    nothing and invokes its callback without an error. *)
Theorem createClients_reuses_clients dir cb w :
  connected w →
  url (params (client w)) ≠ UrlOther →
  createClients dir cb w = cb None w.
Proof. apply createClients_connected. Qed.

Lemma createClients_reuses_clients_witness :
  let w := connect (Some "ldap://a") (initial Fixture.single) in
  createClients Fixture.healthy report1 w = report1 None w.
Proof.
  intros w. apply (createClients_reuses_clients Fixture.healthy report1 w).
  - split; simpl; eauto.
  - discriminate.
Defined.

(** X2.  [createClients] composes with itself: a second call after a first
    one that succeeded creates no further client, whatever url it draws. *)
Theorem createClients_twice dir cb w u :
  selected_url dir w = Some u →
  dir_create_throws dir u = false →
  createClients dir (λ _, createClients dir cb) w = cb None (connect u w).
Proof.
  intros Hu Hc. rewrite (createClients_connect _ _ _ _ Hu Hc).
  apply createClients_connected; [apply connect_connected|].
  rewrite connect_params. eapply selected_url_not_other, Hu.
Qed.

Lemma createClients_twice_witness :
  createClients Fixture.healthy (λ _, createClients Fixture.healthy report1)
    (initial Fixture.single) =
  report1 None (connect (Some "ldap://a") (initial Fixture.single)).
Proof.
  apply (createClients_twice Fixture.healthy report1 (initial Fixture.single)
           (Some "ldap://a")); reflexivity.
Defined.

Lemma createClients_unconnected dir cb w u :
  selected_url dir w = Some u →
  dir_create_throws dir u = true →
  ¬ connected w →
  createClients dir cb w = Thrown "TypeError: createClient options" w.
Proof.
  intros Hu Hc Hn. unfold createClients.
  change ((this ≫= ?f) w) with (f (client w) w). cbv beta.
  rewrite getUrl_selected, Hu. simpl.
  destruct w as [[p [mc|] mb [uc|] ub] tr]; exec; unfold createClient; rewrite ?Hc;
    try reflexivity.
  exfalso. apply Hn. split; simpl; eauto.
Qed.

(** X3.  When ldapjs rejects the selected url and a client is still missing,
    [createClients] raises: the callback is not invoked and the instance is
    left as it was. *)
Theorem createClients_rejected_url dir cb w u :
  selected_url dir w = Some u →
  dir_create_throws dir u = true →
  ¬ connected w →
  createClients dir cb w = Thrown "TypeError: createClient options" w.
Proof. apply createClients_unconnected. Qed.

Lemma createClients_rejected_url_witness :
  createClients Fixture.draws_one report1
    (initial (Fixture.config (UrlArray [Some "ldap://a"]))) =
  Thrown "TypeError: createClient options"
    (initial (Fixture.config (UrlArray [Some "ldap://a"]))).
Proof.
  apply (createClients_rejected_url Fixture.draws_one report1 _ None);
    try reflexivity.
  intros [[c Hc] _]. discriminate.
Defined.

(** X4.  For an array url and a draw below the length of the compacted
    array, [getUrl] answers, without an error, a non-empty string that is an
    element of the array. *)
Theorem getUrl_array_member dir a cb w :
  (dir_random dir (trace w) (length (compact a)) < length (compact a))%nat →
  ∃ s, Some s ∈ a ∧ s ≠ "" ∧ getUrl dir (UrlArray a) cb w = cb None (Some s) w.
Proof.
  intros Hlt. destruct (getUrl_array_in_range dir a cb w Hlt) as (s & Hs & Hrun).
  apply compact_elem in Hs as [Hin Hne]. exists s. auto.
Qed.

Lemma getUrl_array_member_witness :
  ∃ s, Some s ∈ [None; Some "ldap://a"; Some ""] ∧ s ≠ ""
       ∧ getUrl Fixture.healthy (UrlArray [None; Some "ldap://a"; Some ""])
           (report VString) (initial Fixture.single) =
         report VString None (Some s) (initial Fixture.single).
Proof.
  apply (getUrl_array_member Fixture.healthy [None; Some "ldap://a"; Some ""]
           (report VString) (initial Fixture.single)).
  simpl. lia.
Defined.

(** ** extractCNFromDN and the member objects *)

Lemma each_push {A B} (p : A → bool) (g : A → B) (l : list A) (s : list B) :
  each l (λ x, if p x then push (g x) else mret tt) s
  = Done tt (s ++ map g (List.filter p l))%list.
Proof.
  revert s. induction l as [|x r IH]; intros s; simpl.
  - rewrite app_nil_r. reflexivity.
  - unfold mbind, M_bind. destruct (p x); simpl.
    + rewrite IH, <- app_assoc. reflexivity.
    + apply IH.
Qed.

(** The components of a DN that [extractCNFromDN] reports. *)
Lemma extract_push {B} u (f : option jserr → option string → B) d (s : list B) :
  extractCNFromDN u (Some d) (λ err valuedata, push (f err valuedata)) s
  = Done tt (s ++ map (λ t, f None (Some (Str.ltrim t "cn=")))
                    (List.filter (λ t, Str.startsWith t "cn=")
                       (Str.words u (Str.toLowerCase u d) ",")))%list.
Proof. unfold extractCNFromDN. apply each_push. Qed.

Lemma extracted_tokens u d :
  extracted u (Some d)
  = map (λ t, (None, Some (Str.ltrim t "cn=")))
      (List.filter (λ t, Str.startsWith t "cn=")
         (Str.words u (Str.toLowerCase u d) ",")).
Proof. unfold extracted. rewrite extract_push. reflexivity. Qed.

Lemma ltrim_trimmed s : trimmed (Str.ltrim s "cn=") = true.
Proof.
  induction s as [|c r IH]; [reflexivity|].
  cbn [Str.ltrim]. destruct (Str.char_in c "cn=") eqn:Hc; [exact IH|].
  cbn [trimmed]. rewrite Hc. reflexivity.
Qed.

Lemma extracted_elem u d x :
  x ∈ extracted u (Some d) →
  ∃ v, x = (None, Some v)
       ∧ has_upper u v = false ∧ has_ascii_upper v = false ∧ trimmed v = true.
Proof.
  rewrite extracted_tokens. intros (t & -> & Ht)%list_elem_of_fmap.
  exists (Str.ltrim t "cn="). split; [reflexivity|].
  apply list_elem_of_In, filter_In in Ht as [Ht Hcn]. apply list_elem_of_In in Ht.
  pose proof (words_lowered u (Str.toLowerCase u d) ","%char eq_refl
                (lowered_lower u d)) as Hw.
  rewrite Forall_forall in Hw.
  pose proof (token_lower u t (Hw t Ht) Hcn) as Hlow.
  split; [exact Hlow|]. split; [|apply ltrim_trimmed].
  apply (lower_no_ascii_upper u), Hlow.
Qed.

Lemma members_push u value (s : list MemberObject) :
  extractCNFromDN u (Some value) (λ err valuedata,
    push {| cn := valuedata; dn := value |}) s
  = Done tt (s ++ members_of_dn u value)%list.
Proof.
  rewrite (extract_push u (λ _ valuedata, {| cn := valuedata; dn := value |})).
  unfold members_of_dn. rewrite extracted_tokens, map_map. reflexivity.
Qed.

Lemma memberObjects_flat dir entry :
  memberObjects_of dir entry
  = flat_map (members_of_dn (dir_unicode dir)) (member_values entry).
Proof.
  unfold memberObjects_of, member_values.
  destruct (entry !! "member") as [[value|values]|]; cbv beta iota zeta.
  - rewrite members_push. simpl. rewrite app_nil_r. reflexivity.
  - assert (H : ∀ s : list MemberObject,
        each values (λ value, extractCNFromDN (dir_unicode dir) (Some value)
          (λ _ valuedata, push {| cn := valuedata; dn := value |})) s
        = Done tt (s ++ flat_map (members_of_dn (dir_unicode dir)) values)%list).
    { induction values as [|v r IH]; intros s; cbn [each flat_map].
      - rewrite app_nil_r. reflexivity.
      - unfold mbind, M_bind. rewrite members_push, IH, <- app_assoc. reflexivity. }
    rewrite H. reflexivity.
  - reflexivity.
Qed.

Lemma memberObjects_elem dir entry m :
  m ∈ memberObjects_of dir entry →
  dn m ∈ member_values entry
  ∧ ∃ v, cn m = Some v ∧ has_upper (dir_unicode dir) v = false ∧ trimmed v = true.
Proof.
  rewrite memberObjects_flat. intros Hm.
  apply list_elem_of_In, in_flat_map in Hm as (value & Hv & Hm).
  apply list_elem_of_In in Hv. unfold members_of_dn in Hm.
  apply list_elem_of_In, list_elem_of_fmap in Hm as (x & -> & Hx).
  split; [exact Hv|].
  destruct (extracted_elem _ _ _ Hx) as (v & -> & Hup & _ & Htr).
  exists v. auto.
Qed.

(** X5.  For a dn that is given, [extractCNFromDN] never reports an error:
    every invocation of its callback carries no error and a token that is in
    lower case (lower-casing leaves it as it is, and it has none of the
    letters A-Z) and does not begin with c, n or =. *)
Theorem extractCN_invocations u d x :
  x ∈ extracted u (Some d) →
  ∃ v, x = (None, Some v)
       ∧ has_upper u v = false ∧ has_ascii_upper v = false ∧ trimmed v = true.
Proof. apply extracted_elem. Qed.

Lemma extractCN_invocations_witness :
  ∃ v, (None : option jserr, Some "ancy") = (None, Some v)
       ∧ has_upper Str.latin1 v = false ∧ has_ascii_upper v = false ∧ trimmed v = true.
Proof.
  apply (extractCN_invocations Str.latin1 "CN=nancy,OU=Users,DC=x,DC=com"
           (None, Some "ancy")).
  assert (He : extracted Str.latin1 (Some "CN=nancy,OU=Users,DC=x,DC=com")
               = [(None, Some "ancy")])
    by reflexivity.
  rewrite He. apply list_elem_of_singleton. reflexivity.
Defined.

Lemma members_of_dn_tokens u value :
  members_of_dn u value
  = map (λ t, {| cn := Some (Str.ltrim t "cn="); dn := value |})
      (List.filter (λ t, Str.startsWith t "cn=")
         (Str.words u (Str.toLowerCase u value) ",")).
Proof. unfold members_of_dn. rewrite extracted_tokens, map_map. reflexivity. Qed.

(** X6.  The member objects of a group entry are, DN by DN in the order of
    the [member] attribute, the objects each DN gives on its own: one for
    each component of the lower-cased DN that begins with cn=, none for a DN
    without one.  Every object carries its DN as the directory gave it, and
    a [cn] that is defined. *)
Theorem memberObjects_by_dn dir entry :
  memberObjects_of dir entry
  = flat_map (members_of_dn (dir_unicode dir)) (member_values entry)
  ∧ (∀ value,
       members_of_dn (dir_unicode dir) value
       = map (λ t, {| cn := Some (Str.ltrim t "cn="); dn := value |})
           (List.filter (λ t, Str.startsWith t "cn=")
              (Str.words (dir_unicode dir)
                 (Str.toLowerCase (dir_unicode dir) value) ",")))
  ∧ ∀ m, m ∈ memberObjects_of dir entry →
      dn m ∈ member_values entry ∧ is_Some (cn m).
Proof.
  split; [apply memberObjects_flat|]. split; [apply members_of_dn_tokens|].
  intros m Hm. destruct (memberObjects_elem _ _ _ Hm) as (Hd & v & Hv & _).
  split; [exact Hd | eauto].
Qed.

Lemma memberObjects_by_dn_witness :
  let entry : Entry :=
    {[ "member" := AttrArray ["CN=jdoe,CN=Users,DC=x"; "OU=Sales,DC=x"; "cn=ann,dc=x"] ]} in
  memberObjects_of Fixture.healthy entry =
    [{| cn := Some "jdoe"; dn := "CN=jdoe,CN=Users,DC=x" |};
     {| cn := Some "users"; dn := "CN=jdoe,CN=Users,DC=x" |};
     {| cn := Some "ann"; dn := "cn=ann,dc=x" |}]
  ∧ ∀ m, m ∈ memberObjects_of Fixture.healthy entry →
      dn m ∈ member_values entry ∧ is_Some (cn m).
Proof.
  intros entry. destruct (memberObjects_by_dn Fixture.healthy entry) as (H1 & _ & H2).
  split; [rewrite H1; reflexivity | exact H2].
Defined.

(** ** getMembersOfGroupDN *)

(** After an accepted master bind, the whole of [getMembersOfGroupDN] is a
    case analysis on the answer to the group search. *)
Lemma getMembers_accepted dir callback w u :
  selected_url dir w = Some u →
  dir_create_throws dir u = false →
  masterBound (client w) = false →
  master_bind_answer dir u w = None →
  getMembersOfGroupDN dir callback w =
    match group_search_answer dir u w with
    | SearchFail msg =>
        callback (Some (LdapError msg)) None ;;
        throw "TypeError: Cannot call method 'on' of undefined"
    | SearchStream rs fin =>
        match stream_failure fin with
        | Some err => callback (Some err) None
        | None =>
            match rs with
            | [] => callback None None
            | [entry] => callback None (Some (memberObjects_of dir entry))
            | _ => callback (Some (StrError "Error: unexpected number of matches")) None
            end
        end
    end (resolved u w).
Proof.
  intros Hu Hc Hb Hbind. unfold getMembersOfGroupDN.
  rewrite (bindMaster_accepted _ _ _ _ Hu Hc Hb Hbind).
  unfold group_search_answer, resolved, group_search, log, connect.
  crush_world w; exec;
    (destruct (dir_search _ _ _ _ _) as [msg|rs [e|status]]; exec;
     [rewrite <- ?app_assoc; reflexivity
     |rewrite <- ?app_assoc; reflexivity
     |unfold stream_failure; destruct (status =? 0)%Z; simpl;
      rewrite <- ?app_assoc; destruct rs as [|? [|? ?]]; reflexivity]).
Qed.

(** Whatever [getMembersOfGroupDN] passes on as a result is [undefined] or
    the member objects of one entry. *)
Lemma getMembers_ext_members (P : option (list MemberObject) → Prop) dir cb1 cb2 w :
  P None →
  (∀ entry, P (Some (memberObjects_of dir entry))) →
  (∀ err result w', P result → cb1 err result w' = cb2 err result w') →
  getMembersOfGroupDN dir cb1 w = getMembersOfGroupDN dir cb2 w.
Proof.
  intros HP0 HP1 H. unfold getMembersOfGroupDN.
  assert (Hnone : ∀ err w', cb1 err None w' = cb2 err None w').
  { intros. apply H, HP0. }
  apply bindMaster_ext. intros err w'.
  apply bind_ext; [unfold when; destruct (truthy err); [apply Hnone | reflexivity]|].
  intros _ w1. apply bind_ext; [reflexivity|]. intros self w2.
  apply ldap_search_ext. intros err' res w3.
  apply bind_ext; [unfold when; destruct (truthy err'); [apply Hnone | reflexivity]|].
  intros _ w4. destruct res as [[rs [e|status]]|]; [apply Hnone | | reflexivity].
  destruct (negb (status =? 0)%Z); [apply Hnone|].
  destruct rs as [|entry [|? ?]]; [apply Hnone | | apply Hnone].
  apply H, HP1.
Qed.

(** X7.  A username that begins with c, n or = never matches a member,
    whatever the directory holds: [authUser] runs as if the branch that calls
    [authUserDn] were not written. *)
Theorem authUser_cn_prefix_username dir username password callback w :
  trimmed username = false →
  authUser dir username password callback w = authUser_not_found dir callback w.
Proof.
  intros Hun. unfold authUser, authUser_not_found.
  apply (getMembers_ext_members
           (λ result, ∀ m, m ∈ default [] result → cn m ≠ Some username)).
  - intros m Hm. inversion Hm.
  - intros entry m Hm Hcn. simpl in Hm.
    destruct (memberObjects_elem _ _ _ Hm) as (_ & v & Hv & _ & Htr). congruence.
  - intros err result w' Hr. apply bind_ext; [reflexivity|]. intros _ w1.
    cbv zeta. rewrite where_cn_none by exact Hr. reflexivity.
Qed.

Lemma authUser_cn_prefix_username_witness :
  authUser Fixture.healthy "nancy" "pw" (report VEntry) (initial Fixture.single) =
    authUser_not_found Fixture.healthy (report VEntry) (initial Fixture.single).
Proof.
  apply (authUser_cn_prefix_username Fixture.healthy "nancy" "pw" (report VEntry)
           (initial Fixture.single)).
  reflexivity.
Defined.

(** X8.  After an accepted master bind, a group search that ends with status
    0 and two or more entries makes [getMembersOfGroupDN] invoke its callback
    once, with the error "Error: unexpected number of matches" and no
    result. *)
Theorem getMembers_many_entries dir callback w u rs :
  selected_url dir w = Some u →
  dir_create_throws dir u = false →
  masterBound (client w) = false →
  master_bind_answer dir u w = None →
  group_search_answer dir u w = SearchStream rs (EndStatus 0) →
  (2 ≤ length rs)%nat →
  getMembersOfGroupDN dir callback w =
    callback (Some (StrError "Error: unexpected number of matches")) None (resolved u w).
Proof.
  intros Hu Hc Hb Hbind Hsearch Hlen.
  rewrite (getMembers_accepted _ _ _ _ Hu Hc Hb Hbind), Hsearch.
  destruct rs as [|? [|? ?]]; simpl in *; [lia | lia | reflexivity].
Qed.

Lemma getMembers_many_entries_witness :
  let dir := Fixture.directory 0 None None
               (SearchStream [Fixture.group; Fixture.group] (EndStatus 0))
               (SearchStream [Fixture.jdoe] (EndStatus 0)) in
  getMembersOfGroupDN dir (report VMembers) (initial Fixture.single) =
    report VMembers (Some (StrError "Error: unexpected number of matches")) None
      (resolved (Some "ldap://a") (initial Fixture.single)).
Proof.
  intros dir.
  apply (getMembers_many_entries dir (report VMembers) (initial Fixture.single)
           (Some "ldap://a") [Fixture.group; Fixture.group]);
    first [reflexivity | simpl; lia].
Defined.

(** X9.  After an accepted master bind, a group search that ends with status
    0 and exactly one entry makes [getMembersOfGroupDN] invoke its callback
    once, without an error, with the member objects of that entry; when the
    entry has no [member] attribute the result is the empty array. *)
Theorem getMembers_single_entry dir callback w u entry :
  selected_url dir w = Some u →
  dir_create_throws dir u = false →
  masterBound (client w) = false →
  master_bind_answer dir u w = None →
  group_search_answer dir u w = SearchStream [entry] (EndStatus 0) →
  getMembersOfGroupDN dir callback w =
    callback None (Some (memberObjects_of dir entry)) (resolved u w)
  ∧ (entry !! "member" = None → memberObjects_of dir entry = []).
Proof.
  intros Hu Hc Hb Hbind Hsearch. split.
  - rewrite (getMembers_accepted _ _ _ _ Hu Hc Hb Hbind), Hsearch. reflexivity.
  - intros Hm. rewrite memberObjects_flat. unfold member_values. rewrite Hm.
    reflexivity.
Qed.

Lemma getMembers_single_entry_witness :
  getMembersOfGroupDN Fixture.healthy (report VMembers) (initial Fixture.single) =
    report VMembers None (Some [{| cn := Some "jdoe"; dn := Fixture.jdoe_dn |}])
      (resolved (Some "ldap://a") (initial Fixture.single)).
Proof.
  apply (getMembers_single_entry Fixture.healthy (report VMembers)
           (initial Fixture.single) (Some "ldap://a") Fixture.group);
    reflexivity.
Defined.

(** X10.  After an accepted master bind, a group search whose response ends
    with an ['error'] event, or with a status other than 0, makes
    [getMembersOfGroupDN] invoke its callback once with that error (for a
    status, the message "Status of AD search was" followed by the number) and
    no result, whatever entries came before. *)
Theorem getMembers_stream_failure dir callback w u rs fin err :
  selected_url dir w = Some u →
  dir_create_throws dir u = false →
  masterBound (client w) = false →
  master_bind_answer dir u w = None →
  group_search_answer dir u w = SearchStream rs fin →
  stream_failure fin = Some err →
  getMembersOfGroupDN dir callback w = callback (Some err) None (resolved u w).
Proof.
  intros Hu Hc Hb Hbind Hsearch Hfail.
  rewrite (getMembers_accepted _ _ _ _ Hu Hc Hb Hbind), Hsearch, Hfail. reflexivity.
Qed.

Lemma getMembers_stream_failure_witness :
  let dir := Fixture.directory 0 None None
               (SearchStream [Fixture.group] (EndStatus 32))
               (SearchStream [Fixture.jdoe] (EndStatus 0)) in
  getMembersOfGroupDN dir (report VMembers) (initial Fixture.single) =
    report VMembers (Some (StrError "Status of AD search was32")) None
      (resolved (Some "ldap://a") (initial Fixture.single)).
Proof.
  intros dir.
  apply (getMembers_stream_failure dir (report VMembers) (initial Fixture.single)
           (Some "ldap://a") [Fixture.group] (EndStatus 32)
           (StrError "Status of AD search was32"));
    reflexivity.
Defined.

(** X11.  When the master bind is rejected, [getMembersOfGroupDN] hands the
    bind error to its callback and then sends the group search all the same;
    whatever the directory answers to it, the callback is invoked a second
    time. *)
Theorem getMembers_bind_rejected dir w u e :
  selected_url dir w = Some u →
  dir_create_throws dir u = false →
  masterBound (client w) = false →
  master_bind_answer dir u w = Some e →
  ∃ err v,
    trace (final (getMembersOfGroupDN dir (report VMembers) w)) =
      (trace (connect u w)
       ++ [EvBind Master (masterDn (params (client w))) (masterPw (params (client w)));
           EvCallback (Some (LdapError e)) VUndefined;
           EvSearch Master (groupSearchDN (params (client w)))
             (group_search (params (client w)));
           EvCallback err v])%list.
Proof.
  intros Hu Hc Hb Hbind. unfold getMembersOfGroupDN.
  rewrite (bindMaster_binds _ _ _ _ Hu Hc Hb).
  unfold master_bind_answer in Hbind. rewrite Hbind.
  unfold log, connect, group_search.
  crush_world w; exec; simpl;
    (destruct (dir_search _ _ _ _ _) as [msg|rs [e'|status]]; exec; simpl;
     try (destruct (status =? 0)%Z; simpl; try destruct rs as [|? [|? ?]]);
     exec; simpl; eexists _, _; repeat rewrite <- app_assoc; simpl; reflexivity).
Qed.

Lemma getMembers_bind_rejected_witness :
  ∃ err v,
    trace (final (getMembersOfGroupDN Fixture.master_rejected (report VMembers)
                    (initial Fixture.single))) =
      ([EvCreateClient Master (Some "ldap://a"); EvCreateClient User (Some "ldap://a")]
       ++ [EvBind Master "CN=mymaster,OU=IT,DC=x,DC=com" "s3cr3t";
           EvCallback (Some (LdapError "InvalidCredentialsError")) VUndefined;
           EvSearch Master "CN=MYAPP,OU=Groups,DC=x,DC=com" (group_search Fixture.single);
           EvCallback err v])%list.
Proof.
  apply (getMembers_bind_rejected Fixture.master_rejected (initial Fixture.single)
           (Some "ldap://a") "InvalidCredentialsError");
    reflexivity.
Defined.

(** ** authUserDn *)

Lemma authUserDn_connect dir userDn password callback w u :
  selected_url dir w = Some u →
  dir_create_throws dir u = false →
  authUserDn dir userDn password callback w =
    authUserDn dir userDn password callback (connect u w).
Proof.
  intros Hu Hc. unfold authUserDn.
  rewrite (createClients_connect _ _ _ _ Hu Hc).
  rewrite createClients_connected; [reflexivity | apply connect_connected |].
  rewrite connect_params. eapply selected_url_not_other, Hu.
Qed.

(** With both clients in place and the user bind accepted, the whole of
    [authUserDn] is a case analysis on the answer to the user search. *)
Lemma authUserDn_connected dir userDn password callback w :
  connected w →
  url (params (client w)) ≠ UrlOther →
  dir_bind dir (trace w) User userDn password = None →
  authUserDn dir userDn password callback w =
    match dir_search dir (trace (log [EvBind User userDn password] w)) User userDn
            (user_search (params (client w))) with
    | SearchFail msg =>
        (callback (Some (LdapError msg)) None ;;
         throw "TypeError: Cannot call method 'on' of undefined")
          (log [EvBind User userDn password;
                EvSearch User userDn (user_search (params (client w)))] w)
    | SearchStream rs fin =>
        match stream_failure fin with
        | Some err =>
            callback (Some err) None
              (log [EvBind User userDn password;
                    EvSearch User userDn (user_search (params (client w)))] w)
        | None =>
            match rs with
            | [] => callback None None
            | [entry] =>
                callback None (Some (pick entry (userSearchAttributes (params (client w)))))
            | _ => callback (Some (StrError "Error: unexpected number of matches")) None
            end (log [EvBind User userDn password;
                      EvSearch User userDn (user_search (params (client w)));
                      EvUnbind User] w)
        end
    end.
Proof.
  intros Hcon Hurl Hbind. unfold authUserDn.
  rewrite (createClients_connected _ _ _ Hcon Hurl).
  destruct Hcon as [[mc Hm] [uc Hc]].
  destruct w as [[p m mb c ub] tr]; simpl in *; subst.
  unfold user_search, log. exec. rewrite Hbind. exec. simpl.
  destruct (dir_search _ _ _ _ _) as [msg|rs [e|status]]; exec; simpl.
  - rewrite <- ?app_assoc. reflexivity.
  - rewrite <- ?app_assoc. reflexivity.
  - unfold stream_failure. destruct (status =? 0)%Z; simpl;
      rewrite <- ?app_assoc; [destruct rs as [|? [|? ?]]|]; reflexivity.
Qed.

(** X12.  After an accepted user bind, a user search whose response ends
    with an ['error'] event, or with a status other than 0, makes
    [authUserDn] invoke its callback once with that error; the user client is
    not unbound. *)
Theorem authUserDn_stream_failure dir userDn password callback w u rs fin err :
  selected_url dir w = Some u →
  dir_create_throws dir u = false →
  user_bind_answer dir u w userDn password = None →
  user_search_answer dir u w userDn password = SearchStream rs fin →
  stream_failure fin = Some err →
  authUserDn dir userDn password callback w =
    callback (Some err) None
      (log [EvBind User userDn password;
            EvSearch User userDn (user_search (params (client w)))]
         (connect u w)).
Proof.
  intros Hu Hc Hbind Hsearch Hfail.
  rewrite (authUserDn_connect _ _ _ _ _ _ Hu Hc).
  rewrite authUserDn_connected;
    [| apply connect_connected
     | rewrite connect_params; eapply selected_url_not_other, Hu
     | exact Hbind].
  unfold user_search_answer in Hsearch. rewrite connect_params, Hsearch, Hfail.
  reflexivity.
Qed.

Lemma authUserDn_stream_failure_witness :
  let dir := Fixture.directory 0 None None
               (SearchStream [Fixture.group] (EndStatus 0))
               (SearchStream [] (EndError "NoSuchObjectError")) in
  authUserDn dir Fixture.jdoe_dn "pw" (report VEntry) (initial Fixture.single) =
    report VEntry (Some (LdapError "NoSuchObjectError")) None
      (log [EvBind User Fixture.jdoe_dn "pw";
            EvSearch User Fixture.jdoe_dn (user_search Fixture.single)]
         (connect (Some "ldap://a") (initial Fixture.single))).
Proof.
  intros dir.
  apply (authUserDn_stream_failure dir Fixture.jdoe_dn "pw" (report VEntry)
           (initial Fixture.single) (Some "ldap://a") []
           (EndError "NoSuchObjectError") (LdapError "NoSuchObjectError"));
    reflexivity.
Defined.

(** ** authUser *)

Lemma resolved_connected u w : connected (resolved u w).
Proof. apply (connect_connected u w). Qed.

Lemma resolved_params u w : params (client (resolved u w)) = params (client w).
Proof. apply connect_params. Qed.

Lemma resolved_masterBound u w :
  masterBound (client (resolved u w)) = masterBound (client w).
Proof. apply connect_masterBound. Qed.

(** The second half of [authUser]: what its handler does with the member
    objects of the single group entry. *)
Lemma authUser_resolved dir username password callback w u g :
  selected_url dir w = Some u →
  dir_create_throws dir u = false →
  masterBound (client w) = false →
  master_bind_answer dir u w = None →
  group_search_answer dir u w = SearchStream [g] (EndStatus 0) →
  authUser dir username password callback w =
    match head (where_cn (Some (memberObjects_of dir g)) username) with
    | None => close dir (λ _, callback (Some user_not_found) None)
    | Some user0 =>
        authUserDn dir (dn user0) password (λ err userObject,
          close dir (λ _,
            when (truthy err) (callback err userObject) ;;
            callback None userObject))
    end (resolved u w).
Proof.
  intros Hu Hc Hb Hbind Hsearch. unfold authUser.
  rewrite (getMembers_accepted _ _ _ _ Hu Hc Hb Hbind), Hsearch. reflexivity.
Qed.

(** [_.where(...)[0]] is the first member whose [cn] is the username. *)
Lemma where_cn_first members username l1 m l2 :
  members = (l1 ++ m :: l2)%list →
  cn m = Some username →
  (∀ x, x ∈ l1 → cn x ≠ Some username) →
  head (where_cn (Some members) username) = Some m.
Proof.
  intros -> Hm Hl1. unfold where_cn. simpl.
  induction l1 as [|x r IH]; simpl.
  - rewrite bool_decide_eq_true_2 by exact Hm. reflexivity.
  - rewrite bool_decide_eq_false_2 by (apply Hl1; left).
    apply IH. intros y Hy. apply Hl1. right. exact Hy.
Qed.

(** X13.  The successful path of [authUser].  When the group resolves to
    one entry, the first member object whose [cn] is the username has DN
    [d], the bind of [d] with the given password is accepted and the search
    at [d] ends with status 0 and one entry, [authUser] binds and searches
    with the master client, binds, searches and unbinds with the user client,
    invokes [close], and then its callback once, without an error, with the
    entry restricted to [userSearchAttributes]. *)
Theorem authUser_success dir username password callback w u g l1 m l2 entry :
  selected_url dir w = Some u →
  dir_create_throws dir u = false →
  masterBound (client w) = false →
  master_bind_answer dir u w = None →
  group_search_answer dir u w = SearchStream [g] (EndStatus 0) →
  memberObjects_of dir g = (l1 ++ m :: l2)%list →
  cn m = Some username →
  (∀ x, x ∈ l1 → cn x ≠ Some username) →
  user_bind_answer dir u (resolved u w) (dn m) password = None →
  user_search_answer dir u (resolved u w) (dn m) password
    = SearchStream [entry] (EndStatus 0) →
  authUser dir username password callback w =
    callback None (Some (pick entry (userSearchAttributes (params (client w)))))
      (log [EvBind User (dn m) password;
            EvSearch User (dn m) (user_search (params (client w)));
            EvUnbind User;
            EvClose]
         (resolved u w)).
Proof.
  intros Hu Hc Hb Hbind Hsearch Hmem Hm Hl1 Hub Hus.
  rewrite (authUser_resolved _ _ _ _ _ _ _ Hu Hc Hb Hbind Hsearch).
  rewrite (where_cn_first _ _ _ _ _ Hmem Hm Hl1).
  unfold user_bind_answer, user_search_answer in Hub, Hus.
  rewrite (connect_id u (resolved u w)) in Hub, Hus by apply resolved_connected.
  rewrite authUserDn_connected;
    [| apply resolved_connected
     | rewrite resolved_params; eapply selected_url_not_other, Hu
     | exact Hub].
  rewrite Hus. cbn [stream_failure Z.eqb].
  rewrite close_unbound by (cbn [log client]; rewrite resolved_masterBound; exact Hb).
  rewrite resolved_params. unfold close_without_unbind, log. exec.
  rewrite <- app_assoc. reflexivity.
Qed.

Lemma authUser_success_witness :
  authUser Fixture.healthy "jdoe" "pw" (report VEntry) (initial Fixture.single) =
    report VEntry None (Some (pick Fixture.jdoe ["cn"; "mail"]))
      (log [EvBind User Fixture.jdoe_dn "pw";
            EvSearch User Fixture.jdoe_dn (user_search Fixture.single);
            EvUnbind User;
            EvClose]
         (resolved (Some "ldap://a") (initial Fixture.single))).
Proof.
  apply (authUser_success Fixture.healthy "jdoe" "pw" (report VEntry)
           (initial Fixture.single) (Some "ldap://a") Fixture.group
           [] {| cn := Some "jdoe"; dn := Fixture.jdoe_dn |} [] Fixture.jdoe);
    try reflexivity.
  intros x Hx. inversion Hx.
Defined.

(** X14.  A user search that finds no entry is reported as a success: when
    the matched DN binds and the search at it ends with status 0 and no
    entry, [authUser] invokes [close] and then its callback once, with no
    error and no user object. *)
Theorem authUser_no_user_entry dir username password callback w u g l1 m l2 :
  selected_url dir w = Some u →
  dir_create_throws dir u = false →
  masterBound (client w) = false →
  master_bind_answer dir u w = None →
  group_search_answer dir u w = SearchStream [g] (EndStatus 0) →
  memberObjects_of dir g = (l1 ++ m :: l2)%list →
  cn m = Some username →
  (∀ x, x ∈ l1 → cn x ≠ Some username) →
  user_bind_answer dir u (resolved u w) (dn m) password = None →
  user_search_answer dir u (resolved u w) (dn m) password
    = SearchStream [] (EndStatus 0) →
  authUser dir username password callback w =
    callback None None
      (log [EvBind User (dn m) password;
            EvSearch User (dn m) (user_search (params (client w)));
            EvUnbind User;
            EvClose]
         (resolved u w)).
Proof.
  intros Hu Hc Hb Hbind Hsearch Hmem Hm Hl1 Hub Hus.
  rewrite (authUser_resolved _ _ _ _ _ _ _ Hu Hc Hb Hbind Hsearch).
  rewrite (where_cn_first _ _ _ _ _ Hmem Hm Hl1).
  unfold user_bind_answer, user_search_answer in Hub, Hus.
  rewrite (connect_id u (resolved u w)) in Hub, Hus by apply resolved_connected.
  rewrite authUserDn_connected;
    [| apply resolved_connected
     | rewrite resolved_params; eapply selected_url_not_other, Hu
     | exact Hub].
  rewrite Hus. cbn [stream_failure Z.eqb].
  rewrite close_unbound by (cbn [log client]; rewrite resolved_masterBound; exact Hb).
  rewrite resolved_params. unfold close_without_unbind, log. exec.
  rewrite <- app_assoc. reflexivity.
Qed.

Lemma authUser_no_user_entry_witness :
  authUser Fixture.no_user "jdoe" "pw" (report VEntry) (initial Fixture.single) =
    report VEntry None None
      (log [EvBind User Fixture.jdoe_dn "pw";
            EvSearch User Fixture.jdoe_dn (user_search Fixture.single);
            EvUnbind User;
            EvClose]
         (resolved (Some "ldap://a") (initial Fixture.single))).
Proof.
  apply (authUser_no_user_entry Fixture.no_user "jdoe" "pw" (report VEntry)
           (initial Fixture.single) (Some "ldap://a") Fixture.group
           [] {| cn := Some "jdoe"; dn := Fixture.jdoe_dn |} []);
    try reflexivity.
  intros x Hx. inversion Hx.
Defined.

Lemma stream_failure_truthy fin err :
  stream_failure fin = Some err → truthy (Some err) = true.
Proof.
  destruct fin as [e|status]; simpl.
  - intros [= <-]. reflexivity.
  - destruct (status =? 0)%Z; [discriminate|]. intros [= <-]. reflexivity.
Qed.

(** X15.  An error of the user search reaches the caller twice over: when
    the matched DN binds and the search at it ends with an ['error'] event or
    a status other than 0, [authUser] invokes [close] and then its callback
    with the error, and then its callback again with no error and no user
    object. *)
Theorem authUser_search_error_then_success
    dir username password callback w u g l1 m l2 rs fin err :
  selected_url dir w = Some u →
  dir_create_throws dir u = false →
  masterBound (client w) = false →
  master_bind_answer dir u w = None →
  group_search_answer dir u w = SearchStream [g] (EndStatus 0) →
  memberObjects_of dir g = (l1 ++ m :: l2)%list →
  cn m = Some username →
  (∀ x, x ∈ l1 → cn x ≠ Some username) →
  user_bind_answer dir u (resolved u w) (dn m) password = None →
  user_search_answer dir u (resolved u w) (dn m) password = SearchStream rs fin →
  stream_failure fin = Some err →
  authUser dir username password callback w =
    (callback (Some err) None ;; callback None None)
      (log [EvBind User (dn m) password;
            EvSearch User (dn m) (user_search (params (client w)));
            EvClose]
         (resolved u w)).
Proof.
  intros Hu Hc Hb Hbind Hsearch Hmem Hm Hl1 Hub Hus Hfail.
  pose proof (stream_failure_truthy _ _ Hfail) as Htruthy.
  rewrite (authUser_resolved _ _ _ _ _ _ _ Hu Hc Hb Hbind Hsearch).
  rewrite (where_cn_first _ _ _ _ _ Hmem Hm Hl1).
  unfold user_bind_answer, user_search_answer in Hub, Hus.
  rewrite (connect_id u (resolved u w)) in Hub, Hus by apply resolved_connected.
  rewrite authUserDn_connected;
    [| apply resolved_connected
     | rewrite resolved_params; eapply selected_url_not_other, Hu
     | exact Hub].
  rewrite Hus, Hfail.
  rewrite close_unbound by (cbn [log client]; rewrite resolved_masterBound; exact Hb).
  rewrite resolved_params. unfold close_without_unbind.
  rewrite Htruthy. unfold log. exec. rewrite <- app_assoc. reflexivity.
Qed.

Lemma authUser_search_error_then_success_witness :
  let dir := Fixture.directory 0 None None
               (SearchStream [Fixture.group] (EndStatus 0))
               (SearchStream [] (EndError "NoSuchObjectError")) in
  authUser dir "jdoe" "pw" (report VEntry) (initial Fixture.single) =
    (report VEntry (Some (LdapError "NoSuchObjectError")) None ;;
     report VEntry None None)
      (log [EvBind User Fixture.jdoe_dn "pw";
            EvSearch User Fixture.jdoe_dn (user_search Fixture.single);
            EvClose]
         (resolved (Some "ldap://a") (initial Fixture.single))).
Proof.
  intros dir.
  apply (authUser_search_error_then_success dir "jdoe" "pw" (report VEntry)
           (initial Fixture.single) (Some "ldap://a") Fixture.group
           [] {| cn := Some "jdoe"; dn := Fixture.jdoe_dn |} []
           [] (EndError "NoSuchObjectError") (LdapError "NoSuchObjectError"));
    try reflexivity.
  intros x Hx. inversion Hx.
Defined.

(** The callback [authUser] gives to [authUserDn], for a caller that records. *)
Lemma authUserDn_rejected_prefix dir userDn password w e :
  connected w →
  masterBound (client w) = false →
  url (params (client w)) ≠ UrlOther →
  dir_bind dir (trace w) User userDn password = Some e →
  ∃ rest,
    trace (final (authUserDn dir userDn password (λ err userObject,
             close dir (λ _,
               when (truthy err) (report VEntry err userObject) ;;
               report VEntry None userObject)) w)) =
      (trace w
       ++ [EvBind User userDn password;
           EvClose;
           EvCallback (Some (LdapError e)) VUndefined;
           EvCallback None VUndefined;
           EvSearch User userDn (user_search (params (client w)))]
       ++ rest)%list.
Proof.
  intros Hcon Hb Hurl Hbind. unfold authUserDn.
  rewrite (createClients_connected _ _ _ Hcon Hurl).
  destruct Hcon as [[mc Hm] [uc Hc]].
  destruct w as [[p m mb c ub] tr]; simpl in *; subst.
  unfold user_search, close. exec. rewrite Hbind. exec. simpl.
  destruct (dir_search _ _ _ _ _) as [msg|rs [e'|status]]; exec; simpl;
    try (destruct (status =? 0)%Z; simpl; try destruct rs as [|? [|? ?]]);
    exec; simpl; eexists; repeat rewrite <- app_assoc; simpl; reflexivity.
Qed.

(** X16.  A wrong password is reported as a failure and then as a success:
    when the bind of the matched DN is rejected, [authUser] invokes [close],
    hands the bind error to the caller, invokes the caller's callback again
    with no error and no user object, and sends the user search all the
    same. *)
Theorem authUser_bind_rejected dir username password w u g l1 m l2 e :
  selected_url dir w = Some u →
  dir_create_throws dir u = false →
  masterBound (client w) = false →
  master_bind_answer dir u w = None →
  group_search_answer dir u w = SearchStream [g] (EndStatus 0) →
  memberObjects_of dir g = (l1 ++ m :: l2)%list →
  cn m = Some username →
  (∀ x, x ∈ l1 → cn x ≠ Some username) →
  user_bind_answer dir u (resolved u w) (dn m) password = Some e →
  ∃ rest,
    trace (final (authUser dir username password (report VEntry) w)) =
      (trace (resolved u w)
       ++ [EvBind User (dn m) password;
           EvClose;
           EvCallback (Some (LdapError e)) VUndefined;
           EvCallback None VUndefined;
           EvSearch User (dn m) (user_search (params (client w)))]
       ++ rest)%list.
Proof.
  intros Hu Hc Hb Hbind Hsearch Hmem Hm Hl1 Hub.
  rewrite (authUser_resolved _ _ _ _ _ _ _ Hu Hc Hb Hbind Hsearch).
  rewrite (where_cn_first _ _ _ _ _ Hmem Hm Hl1).
  unfold user_bind_answer in Hub.
  rewrite (connect_id u (resolved u w)) in Hub by apply resolved_connected.
  rewrite <- (resolved_params u w).
  apply authUserDn_rejected_prefix.
  - apply resolved_connected.
  - rewrite resolved_masterBound. exact Hb.
  - rewrite resolved_params. eapply selected_url_not_other, Hu.
  - exact Hub.
Qed.

Lemma authUser_bind_rejected_witness :
  ∃ rest,
    trace (final (authUser Fixture.user_rejected "jdoe" "wrong" (report VEntry)
                    (initial Fixture.single))) =
      (trace (resolved (Some "ldap://a") (initial Fixture.single))
       ++ [EvBind User Fixture.jdoe_dn "wrong";
           EvClose;
           EvCallback (Some (LdapError "InvalidCredentialsError")) VUndefined;
           EvCallback None VUndefined;
           EvSearch User Fixture.jdoe_dn (user_search Fixture.single)]
       ++ rest)%list.
Proof.
  apply (authUser_bind_rejected Fixture.user_rejected "jdoe" "wrong"
           (initial Fixture.single) (Some "ldap://a") Fixture.group
           [] {| cn := Some "jdoe"; dn := Fixture.jdoe_dn |} []
           "InvalidCredentialsError");
    try reflexivity.
  intros x Hx. inversion Hx.
Defined.

(** ** A url that is neither an array nor a string *)

(** X17.  With such a url and no client yet, [bindMaster] hands "No valid
    url given" to its callback and then raises a TypeError, the bind being a
    method call on [false]; nothing is sent to the directory. *)
Theorem bindMaster_invalid_url dir w :
  url (params (client w)) = UrlOther →
  masterClient (client w) = None →
  masterBound (client w) = false →
  bindMaster dir report1 w =
    Thrown "TypeError: bind is not a function"
      (log [EvCallback (Some (StrError "No valid url given")) VUndefined] w).
Proof.
  intros Hurl Hm Hb. unfold bindMaster, createClients.
  destruct w as [[p m mb c ub] tr]; simpl in *; subst.
  exec. rewrite Hurl. reflexivity.
Qed.

Lemma bindMaster_invalid_url_witness :
  bindMaster Fixture.healthy report1 (initial (Fixture.config UrlOther)) =
    Thrown "TypeError: bind is not a function"
      (log [EvCallback (Some (StrError "No valid url given")) VUndefined]
         (initial (Fixture.config UrlOther))).
Proof.
  apply (bindMaster_invalid_url Fixture.healthy (initial (Fixture.config UrlOther)));
    reflexivity.
Defined.

(** X18.  With such a url and no client yet, [authUser] hands "No valid url
    given" to the caller, invokes [close], hands "Error: User not found" to
    the caller, and then raises a TypeError, the search being a method call
    on [false]; nothing is sent to the directory. *)
Theorem authUser_invalid_url dir username password w :
  url (params (client w)) = UrlOther →
  masterClient (client w) = None →
  masterBound (client w) = false →
  authUser dir username password (report VEntry) w =
    Thrown "TypeError: search is not a function"
      (log [EvCallback (Some (StrError "No valid url given")) VUndefined;
            EvClose;
            EvCallback (Some user_not_found) VUndefined] w).
Proof.
  intros Hurl Hm Hb.
  unfold authUser, getMembersOfGroupDN, bindMaster, createClients, close.
  destruct w as [[p m mb c ub] tr]; simpl in *; subst.
  exec. rewrite Hurl. exec. simpl. rewrite <- !app_assoc. reflexivity.
Qed.

Lemma authUser_invalid_url_witness :
  authUser Fixture.healthy "jdoe" "pw" (report VEntry)
    (initial (Fixture.config UrlOther)) =
    Thrown "TypeError: search is not a function"
      (log [EvCallback (Some (StrError "No valid url given")) VUndefined;
            EvClose;
            EvCallback (Some user_not_found) VUndefined]
         (initial (Fixture.config UrlOther))).
Proof.
  apply (authUser_invalid_url Fixture.healthy "jdoe" "pw"
           (initial (Fixture.config UrlOther)));
    reflexivity.
Defined.

(** ** What every method keeps *)

(** A property of the fields of the instance that the trace does not
    affect, that resetting [masterBound] keeps and that [createClients]
    keeps, is kept by every method. *)
Section Frame.

Context (dir : Directory) (I : adClient → Prop).

Hypothesis I_bound : ∀ a b, I a → I (set_masterBound b a).

Hypothesis I_create : ∀ cb,
  (∀ err, always (λ w, I (client w)) (cb err)) →
  always (λ w, I (client w)) (createClients dir cb).

Ltac frame_step :=
  lazymatch goal with
  | |- ∀ _, _ => intro
  | |- always _ (_ ≫= _) => apply always_bind
  | |- always _ (when _ _) => apply always_when
  | |- always _ this => intros ? ?; assumption
  | |- always _ history => intros ? ?; assumption
  | |- always _ (emit _) => intros [? ?] H; exact H
  | |- always _ (update (set_masterBound _)) => intros [? ?] H; apply I_bound; exact H
  | |- always _ (createClients _ _) => apply I_create
  | |- always _ (report _ _ _) => unfold report
  | |- always _ (report1 _) => unfold report1
  | |- always _ (random _ _) => unfold random
  | |- always _ (getUrl _ _ _) => unfold getUrl
  | |- always _ (ldap_bind _ _ _ _ _ _) => unfold ldap_bind
  | |- always _ (ldap_search _ _ _ _ _ _) => unfold ldap_search
  | |- always _ (ldap_unbind _ _ _ _) => unfold ldap_unbind
  | |- always _ (bindMaster _ _) => unfold bindMaster
  | |- always _ (close _ _) => unfold close
  | |- always _ (getMembersOfGroupDN _ _) => unfold getMembersOfGroupDN
  | |- always _ (authUserDn _ _ _ _) => unfold authUserDn
  | |- always _ (authUser _ _ _ _) => unfold authUser
  | |- always _ (match ?x with _ => _ end) => destruct x
  | |- always _ (if ?x then _ else _) => destruct x
  | |- _ => solve [auto with keeps]
  end.

Lemma frame_extractCNFromDN u d cb :
  (∀ err v, always (λ w, I (client w)) (cb err v)) →
  always (λ w, I (client w)) (extractCNFromDN u d cb).
Proof.
  intros H. unfold extractCNFromDN. destruct d; [|apply H].
  apply always_each. repeat frame_step.
Qed.

Lemma frame_perform c : always (λ w, I (client w)) (perform dir c).
Proof.
  destruct c; cbn [perform];
    [| | | |apply frame_extractCNFromDN|..]; repeat frame_step.
Qed.

End Frame.

(** The ways [createClients] can go. *)
Lemma createClients_cases dir cb w :
  (∃ err, createClients dir cb w = cb err w)
  ∨ (∃ u, selected_url dir w = Some u ∧ createClients dir cb w = cb None (connect u w))
  ∨ (∃ e, createClients dir cb w = Thrown e w).
Proof.
  destruct (selected_url dir w) as [u|] eqn:Hu.
  - destruct (dir_create_throws dir u) eqn:Hc.
    + destruct w as [[p [mc|] mb [uc|] ub] tr].
      * left. exists None. apply createClients_connected.
        -- split; simpl; eauto.
        -- eapply selected_url_not_other, Hu.
      * right. right. eexists. apply (createClients_unconnected _ _ _ _ Hu Hc).
        intros [_ [c Hc']]. discriminate.
      * right. right. eexists. apply (createClients_unconnected _ _ _ _ Hu Hc).
        intros [[c Hc'] _]. discriminate.
      * right. right. eexists. apply (createClients_unconnected _ _ _ _ Hu Hc).
        intros [[c Hc'] _]. discriminate.
    + right. left. exists u. split; [reflexivity|].
      apply createClients_connect; assumption.
  - left. exists (Some (StrError "No valid url given")).
    unfold createClients.
    change ((this ≫= ?f) w) with (f (client w) w). cbv beta.
    rewrite getUrl_selected, Hu. reflexivity.
Qed.

Lemma frame_create dir (I : adClient → Prop) cb :
  (∀ u w, selected_url dir w = Some u → I (client w) → I (client (connect u w))) →
  (∀ err, always (λ w, I (client w)) (cb err)) →
  always (λ w, I (client w)) (createClients dir cb).
Proof.
  intros Hconn H w Hw.
  destruct (createClients_cases dir cb w) as [(err & ->)|[(u & Hu & ->)|(e & ->)]].
  - apply (H err w Hw).
  - apply (H None (connect u w)). apply Hconn; assumption.
  - exact Hw.
Qed.

Lemma keeps_clients_connect a0 u w :
  keeps_clients a0 (client w) → keeps_clients a0 (client (connect u w)).
Proof.
  destruct w as [[p [mc|] mb [uc|] ub] tr]; intros (Hp & Hm & Hu);
    unfold connect; simpl in *; (split; [exact Hp|]); split; simpl; intros c0 H0;
    first [apply Hm, H0 | apply Hu, H0
          | specialize (Hm _ H0); discriminate | specialize (Hu _ H0); discriminate].
Qed.

Lemma keeps_clients_refl a : keeps_clients a a.
Proof. repeat split; auto. Qed.

(** X19.  No method call changes the parameters, and none replaces or
    drops a client that exists: whatever the directory answers, and whether
    the call returns or raises. *)
Theorem perform_keeps_clients dir c w :
  keeps_clients (client w) (client (final (perform dir c w))).
Proof.
  apply (frame_perform dir (keeps_clients (client w))).
  - intros a b (Hp & Hm & Hu). repeat split; assumption.
  - intros cb Hcb. apply frame_create; [|exact Hcb].
    intros u w0 _. apply keeps_clients_connect.
  - apply keeps_clients_refl.
Qed.

Lemma paired_connect u w : paired (client w) → paired (client (connect u w)).
Proof.
  destruct w as [[p [mc|] mb [uc|] ub] tr]; unfold paired, connect; simpl;
    intros H; first [exact H | discriminate | reflexivity].
Qed.

(** X20.  The two clients of an instance are created together and for the
    same url: in every world an instance can reach, either both are missing
    or both exist and are equal. *)
Theorem reachable_paired dir p w :
  reachable dir p w → masterClient (client w) = userClient (client w).
Proof.
  induction 1 as [|w c _ IH]; [reflexivity|].
  apply (frame_perform dir paired).
  - intros a b Ha. exact Ha.
  - intros cb Hcb. apply frame_create; [|exact Hcb].
    intros u w0 _. apply paired_connect.
  - exact IH.
Qed.

Lemma reachable_paired_witness :
  masterClient (client (final (perform Fixture.healthy (CallAuthUser "jdoe" "pw")
                                 (initial Fixture.single)))) =
  userClient (client (final (perform Fixture.healthy (CallAuthUser "jdoe" "pw")
                               (initial Fixture.single)))).
Proof.
  apply (reachable_paired Fixture.healthy Fixture.single).
  apply reach_call, reach_initial.
Defined.

Lemma selected_url_configured dir w u :
  selected_url dir w = Some u → configured (params (client w)) u.
Proof.
  unfold selected_url, configured. destruct (url (params (client w))) as [a|s|].
  - intros [= <-]. destruct (compact a !! _) as [s|] eqn:Hs; [right | left; reflexivity].
    exists s. split; [reflexivity|]. apply compact_elem.
    eapply list_elem_of_lookup_2, Hs.
  - intros [= <-]. reflexivity.
  - discriminate.
Qed.

Lemma clients_configured_connect dir p u w :
  selected_url dir w = Some u →
  clients_configured p (client w) → clients_configured p (client (connect u w)).
Proof.
  intros Hsel (Hp & Hm & Hu).
  pose proof (selected_url_configured _ _ _ Hsel) as Hcu. rewrite Hp in Hcu.
  destruct w as [[p' [mc|] mb [uc|] ub] tr]; unfold connect; simpl in *;
    (split; [exact Hp|]); split; simpl; intros c0 H0;
    first [apply Hm, H0 | apply Hu, H0 | injection H0 as <-; exact Hcu].
Qed.

(** X21.  Clients are only ever created for a url of the configuration: in
    every world an instance can reach, the parameters are those it was built
    with, and the url of each client is the configured string, or for an
    array one of its non-empty strings or [undefined]; with a url that is
    neither an array nor a string no client ever exists. *)
Theorem reachable_clients_configured dir p w :
  reachable dir p w → clients_configured p (client w).
Proof.
  induction 1 as [|w c _ IH].
  - split; [reflexivity|]. split; intros c Hc; discriminate.
  - apply (frame_perform dir (clients_configured p)).
    + intros a b (Hp & Hm & Hu). repeat split; assumption.
    + intros cb Hcb. apply frame_create; [|exact Hcb].
      intros u w0. apply clients_configured_connect.
    + exact IH.
Qed.

Lemma reachable_clients_configured_witness :
  clients_configured Fixture.single
    (client (final (perform Fixture.healthy (CallAuthUser "jdoe" "pw")
                      (initial Fixture.single)))).
Proof.
  apply (reachable_clients_configured Fixture.healthy Fixture.single).
  apply reach_call, reach_initial.
Defined.

(** ** The credentials [authUser] sends *)

Lemma always_this_bind {A} (I : World → Prop) (f : adClient → M World A) :
  (∀ w0, I w0 → always I (f (client w0))) → always I (this ≫= f).
Proof. intros H w Hw. apply (H w Hw w Hw). Qed.

Section Credentials.

Context (dir : Directory) (p : Params) (password : string) (base : list Event).

Ltac cred_event :=
  repeat match goal with
         | H : binds_ok _ _ _ _ |- _ => destruct H as [? _]
         end;
  simpl; try split; congruence || exact I.

Ltac cred_step :=
  lazymatch goal with
  | |- ∀ _, _ => intro
  | |- always _ (this ≫= _) => apply always_this_bind; intros ? ?
  | |- always _ (_ ≫= _) => apply always_bind
  | |- always _ (when _ _) => apply always_when
  | |- always _ history => intros ? ?; assumption
  | |- always _ (emit _) =>
      let Hp := fresh in let Ht := fresh in let Hok := fresh in
      let new := fresh "new" in
      intros [? ?] (Hp & new & Ht & Hok); split; [exact Hp|];
      eexists (new ++ [_])%list; split;
      [cbn [trace] in *; rewrite Ht, app_assoc; reflexivity|];
      apply Forall_app; split; [exact Hok|];
      constructor; [cred_event | constructor]
  | |- always _ (update _) => intros [? ?] [? ?]; split; assumption
  | |- always _ (report _ _ _) => unfold report
  | |- always _ (random _ _) => unfold random
  | |- always _ (createClient _ _ _) => unfold createClient
  | |- always _ (getUrl _ _ _) => unfold getUrl
  | |- always _ (ldap_bind _ _ _ _ _ _) => unfold ldap_bind
  | |- always _ (ldap_search _ _ _ _ _ _) => unfold ldap_search
  | |- always _ (ldap_unbind _ _ _ _) => unfold ldap_unbind
  | |- always _ (match ?x with _ => _ end) => destruct x
  | |- always _ (if ?x then _ else _) => destruct x
  | |- _ => solve [auto with keeps]
  end.

Lemma binds_ok_createClients cb :
  (∀ err, always (binds_ok p password base) (cb err)) →
  always (binds_ok p password base) (createClients dir cb).
Proof. intros H. unfold createClients. repeat cred_step. Qed.

Lemma binds_ok_bindMaster cb :
  (∀ err, always (binds_ok p password base) (cb err)) →
  always (binds_ok p password base) (bindMaster dir cb).
Proof.
  intros H. unfold bindMaster. apply binds_ok_createClients. repeat cred_step.
Qed.

Lemma binds_ok_close cb :
  (∀ err, always (binds_ok p password base) (cb err)) →
  always (binds_ok p password base) (close dir cb).
Proof. intros H. unfold close. repeat cred_step. Qed.

Lemma binds_ok_getMembers cb :
  (∀ err result, always (binds_ok p password base) (cb err result)) →
  always (binds_ok p password base) (getMembersOfGroupDN dir cb).
Proof.
  intros H. unfold getMembersOfGroupDN. apply binds_ok_bindMaster.
  repeat cred_step.
Qed.

Lemma binds_ok_authUserDn userDn cb :
  (∀ err user, always (binds_ok p password base) (cb err user)) →
  always (binds_ok p password base) (authUserDn dir userDn password cb).
Proof.
  intros H. unfold authUserDn. apply binds_ok_createClients.
  repeat cred_step.
Qed.

Lemma binds_ok_authUser username :
  always (binds_ok p password base) (authUser dir username password (report VEntry)).
Proof.
  unfold authUser. apply binds_ok_getMembers. intros err result.
  apply always_bind; [repeat cred_step|]. intros _. cbv zeta.
  destruct (head _).
  - apply binds_ok_authUserDn. intros err' user.
    apply binds_ok_close. repeat cred_step.
  - apply binds_ok_close. repeat cred_step.
Qed.

End Credentials.

(** X22.  Every bind that [authUser] sends carries the credentials it
    should, whatever the state of the instance and whatever the directory
    answers: the events of the call come after those already there, and
    among them a bind on the master client carries [masterDn] and [masterPw]
    of the parameters, a bind on the user client carries the password the
    caller supplied. *)
Theorem authUser_credentials dir username password w :
  ∃ new,
    trace (final (authUser dir username password (report VEntry) w))
    = (trace w ++ new)%list
    ∧ Forall (credentials_ok (params (client w)) password) new.
Proof.
  apply (binds_ok_authUser dir (params (client w)) password (trace w) username w).
  split; [reflexivity|]. exists []. split; [symmetry; apply app_nil_r | constructor].
Qed.
